(** * Aurora-Pay: the ledger and authentication engine of [src/lib/storage.ts]

    A shallow embedding of the storage module of the demo wallet: the user
    registry, the session pointer, the per-user transaction logs and the
    secret store, together with the operations the screens call.

    - JavaScript numbers are IEEE 754 binary64 values: Rocq's primitive
      floats, whose operations are the same correctly rounded ones.
    - The two stores are state threaded through a small state-and-exception
      monad; [uuidv4()] and [new Date().toISOString()] are inputs of the
      operations that call them.
    - A value written with [writeJson] and read back with [readJson] went
      through [JSON.stringify] and [JSON.parse]; for numbers this is not the
      identity and it is modelled ([JSON_number]). *)

From Stdlib Require Import ZArith QArith Qabs Qminmax Floats SpecFloat Lia.
From Stdlib Require Import OrderedTypeEx.
From stdpp Require Import base option list sorting strings gmap.

Set Warnings "-inexact-float".

Local Open Scope Z_scope.

(** ** JavaScript numbers *)

Module Number.

Local Open Scope float_scope.

(** The Number [z], for an integer of magnitude below [2^63]; exact below
    [2^53], which is all the uses below need. *)
Definition of_integer (z : Z) : float :=
  match z with
  | Z0 => 0
  | Zpos p => SF2Prim (S754_finite false p 0)
  | Zneg p => SF2Prim (S754_finite true p 0)
  end.

(** The Number nearest to the rational [n / d] (ties to even), for
    [0 <= n] and [0 < d]: the value a decimal literal denotes. *)
Definition of_ratio (n d : Z) : float :=
  match n, d with
  | Zpos pn, Zpos pd =>
      SF2Prim (SFdiv prec emax (S754_finite false pn 0) (S754_finite false pd 0))
  | _, _ => 0
  end.

(** [floor (m * 2^e + 1/2)], for an integer [m] and an exponent [e]. *)
Definition floor_plus_half (m e : Z) : Z :=
  if (0 <=? e)%Z then m * 2 ^ e
  else (2 * m + 2 ^ (- e)) / 2 ^ (1 - e).

(** [Math.max(a, b)]: NaN if either is NaN, and [+0] is larger than [-0]. *)
Definition Math_max (a b : float) : float :=
  if is_nan a || is_nan b then nan
  else if a <? b then b
  else if b <? a then a
  else if get_sign a then b else a.

(** [Math.round(x)]: [x] itself when it is not finite or is integral;
    otherwise the integer closest to [x], the one nearer to +Infinity on a
    tie, and [-0] for [-0.5 <= x < 0]. *)
Definition Math_round (x : float) : float :=
  match Prim2SF x with
  | S754_finite s m e =>
      if (0 <=? e)%Z then x
      else
        let k := floor_plus_half (if s then Zneg m else Zpos m) e in
        if (k =? 0)%Z then (if s then neg_zero else zero) else of_integer k
  | _ => x
  end.

(** The String that [Number.prototype.toFixed] returns, by shape. *)
Inductive FixedString : Type :=
| Str_NaN
    (* "NaN" *)
| Str_ToString (x : float)
    (* Number::toString(x): x is infinite, or 1e21 <= |x| *)
| Str_Digits (negative : bool) (n : Z) (fractionDigits : Z)
    (* an optional "-", then the decimal digits of n with a "." before the
       last fractionDigits of them (zero-padded on the left) *).

(** [x.toFixed(f)] for [0 <= f <= 100]: with the sign taken off, the
    integer [n] for which [n / 10^f - |x|] is closest to zero, the larger
    one when there are two. *)
Definition toFixed (x : float) (f : Z) : FixedString :=
  match Prim2SF x with
  | S754_nan => Str_NaN
  | S754_infinity _ => Str_ToString x
  | S754_zero _ => Str_Digits false 0 f
  | S754_finite s m e =>
      if 1e21 <=? abs x then Str_ToString x
      else Str_Digits s (floor_plus_half (Zpos m * 10 ^ f) e) f
  end.

(** Unary [+] on such a String (StringToNumber): the literal's value,
    rounded to the nearest Number; ["-0.00"] is [-0]. *)
Definition to_number (s : FixedString) : float :=
  match s with
  | Str_NaN => nan
  | Str_ToString x => x
  | Str_Digits negative n f =>
      let v := of_ratio n (10 ^ f) in
      if negative then - v else v
  end.

(** [null] coerced by an arithmetic operator (ToNumber) is [+0]. *)
Definition ToNumber (v : option float) : float := default 0 v.

(** [JSON.parse(JSON.stringify(x))] for a Number [x]: NaN and the
    infinities are written as [null] (here [None]), [-0] is written ["0"],
    every other value comes back as it was. *)
Definition JSON_number (x : float) : option float :=
  if is_nan x || is_infinity x then None
  else if is_zero x then Some 0
  else Some x.

End Number.

Import Number.

(** ** Data model *)

Module User.
Record t : Type := make {
  id : string;
  name : string;
  identifier : string;       (* email or phone *)
  balance : option float;    (* a Number; [None] is the [null] that a
                                balance read back from JSON can be *)
  createdAt : string;
}.

Definition with_balance (u : t) (b : option float) : t :=
  make (id u) (name u) (identifier u) b (createdAt u).
End User.

Inductive TransactionType : Type := send | receive | topup | refund.
Inductive TransactionStatus : Type := completed | pending | failed.

Module Transaction.
Record t : Type := make {
  id : string;
  userId : string;
  type : TransactionType;
  counterparty : option string;
  amount : option float;
  fee : option float;
  total : option float;
  note : option string;
  status : TransactionStatus;
  createdAt : string;
}.
End Transaction.

(** The argument of [createTransactionForCurrentUser]. *)
Module Params.
Record t : Type := make {
  type : TransactionType;
  counterparty : option string;
  amount : float;
  fee : option float;        (* [None]: not supplied *)
  note : option string;
}.
End Params.

(** ** Keys *)

Definition USERS_KEY : string := "DEMO_USERS_V1".
Definition CURRENT_USER_KEY : string := "DEMO_CURRENT_USER_ID".
Definition TX_KEY_PREFIX : string := "DEMO_TXS_USER_".
Definition SECRET_KEY_PREFIX : string := "USER_SECRET_".

(** ** The two stores

    AsyncStorage holds three kinds of entries under keys that never collide
    ([keys_disjoint]), so each kind has a field of its own, holding the
    value as [JSON.parse] returns it. SecureStore maps keys to strings.
    Storage failures are not modelled: every read and write completes (the
    ids that [uuidv4] makes are keys SecureStore accepts). *)

Record Storage : Type := {
  users_item : option (list User.t);               (* under USERS_KEY *)
  current_user_item : option string;               (* under CURRENT_USER_KEY *)
  tx_items : gmap string (list Transaction.t);     (* under TX_KEY_PREFIX ++ id *)
  secure_items : gmap string string;               (* SecureStore *)
}.

Definition empty_storage : Storage :=
  {| users_item := None; current_user_item := None;
     tx_items := ∅; secure_items := ∅ |}.

(** An operation either returns or throws [Error(message)], in the state
    the stores are in at that point. The module throws plain [Error]s; the
    message tells the failure: "A user with that identifier already exists."
    (DuplicateIdentifier), "No user found with that identifier."
    (UserNotFound), "Incorrect password." (InvalidCredentials) and
    "No logged-in user." (NoActiveSession). *)
Inductive Outcome (A : Type) : Type :=
| Returned (a : A)
| Thrown (message : string).
Arguments Returned {A} a.
Arguments Thrown {A} message.

Definition Async (A : Type) : Type := Storage → Outcome A * Storage.

Definition resolve {A} (a : A) : Async A := λ s, (Returned a, s).
Definition throw {A} (message : string) : Async A := λ s, (Thrown message, s).
Definition await {A B} (m : Async A) (k : A → Async B) : Async B :=
  λ s, match m s with
       | (Returned a, s') => k a s'
       | (Thrown e, s') => (Thrown e, s')
       end.

Notation "'let*' x := m 'in' k" := (await m (λ x, k))
  (at level 10, x name, m at level 100, k at level 200).
Notation "m ;;; k" := (await m (λ _, k))
  (at level 100, k at level 200, right associativity).

(** JSON round trip of the records: the Number fields, nothing else. *)
Definition JSON_field (v : option float) : option float := v ≫= JSON_number.

Definition JSON_user (u : User.t) : User.t :=
  User.with_balance u (JSON_field (User.balance u)).

Definition JSON_transaction (t : Transaction.t) : Transaction.t :=
  Transaction.make (Transaction.id t) (Transaction.userId t) (Transaction.type t)
    (Transaction.counterparty t)
    (JSON_field (Transaction.amount t)) (JSON_field (Transaction.fee t))
    (JSON_field (Transaction.total t))
    (Transaction.note t) (Transaction.status t) (Transaction.createdAt t).

(** [readJson] and [writeJson], per kind of entry. *)
Definition readJson_users : Async (option (list User.t)) :=
  λ s, (Returned (users_item s), s).

Definition writeJson_users (value : list User.t) : Async unit :=
  λ s, (Returned (),
        {| users_item := Some (JSON_user <$> value);
           current_user_item := current_user_item s;
           tx_items := tx_items s; secure_items := secure_items s |}).

Definition readJson_txs (key : string) : Async (option (list Transaction.t)) :=
  λ s, (Returned (tx_items s !! key), s).

Definition writeJson_txs (key : string) (value : list Transaction.t) : Async unit :=
  λ s, (Returned (),
        {| users_item := users_item s;
           current_user_item := current_user_item s;
           tx_items := <[key := JSON_transaction <$> value]> (tx_items s);
           secure_items := secure_items s |}).

(** [AsyncStorage.getItem], [setItem] and [removeItem] on CURRENT_USER_KEY. *)
Definition getItem_current_user : Async (option string) :=
  λ s, (Returned (current_user_item s), s).

Definition setItem_current_user (value : string) : Async unit :=
  λ s, (Returned (),
        {| users_item := users_item s; current_user_item := Some value;
           tx_items := tx_items s; secure_items := secure_items s |}).

Definition removeItem_current_user : Async unit :=
  λ s, (Returned (),
        {| users_item := users_item s; current_user_item := None;
           tx_items := tx_items s; secure_items := secure_items s |}).

Definition SecureStore_getItemAsync (key : string) : Async (option string) :=
  λ s, (Returned (secure_items s !! key), s).

Definition SecureStore_setItemAsync (key value : string) : Async unit :=
  λ s, (Returned (),
        {| users_item := users_item s; current_user_item := current_user_item s;
           tx_items := tx_items s;
           secure_items := <[key := value]> (secure_items s) |}).

(** [Array.prototype.find] and [findIndex]: the first match. *)
Definition find {A} (P : A → Prop) `{∀ x, Decision (P x)} (l : list A) : option A :=
  snd <$> list_find P l.

(** A String is falsy when it is [null] or empty. *)
Definition truthy (v : option string) : bool :=
  match v with
  | None => false
  | Some str => negb (String.eqb str "")
  end.

(** ** User / Auth *)

Definition signupUser (name identifier password : string) (uuid now : string)
  : Async User.t :=
  let* stored := readJson_users in
  let users := default [] stored in
  match find (λ u, User.identifier u = identifier) users with
  | Some _ => throw "A user with that identifier already exists."
  | None =>
      let id := uuid in
      let user := User.make id name identifier (Some 0%float) now in
      writeJson_users (users ++ [user]);;;
      SecureStore_setItemAsync (SECRET_KEY_PREFIX ++ id) password;;;
      setItem_current_user id;;;
      writeJson_txs (TX_KEY_PREFIX ++ id) [];;;
      resolve user
  end.

Definition loginUser (identifier password : string) : Async User.t :=
  let* stored := readJson_users in
  let users := default [] stored in
  match find (λ u, User.identifier u = identifier) users with
  | None => throw "No user found with that identifier."
  | Some user =>
      let* secret := SecureStore_getItemAsync (SECRET_KEY_PREFIX ++ User.id user) in
      if negb (truthy secret) || negb (bool_decide (secret = Some password))
      then throw "Incorrect password."
      else
        setItem_current_user (User.id user);;;
        resolve user
  end.

Definition logout : Async unit := removeItem_current_user.

(** ** Current user helpers *)

Definition getCurrentUser : Async (option User.t) :=
  let* id := getItem_current_user in
  if negb (truthy id) then resolve None
  else
    let* stored := readJson_users in
    let users := default [] stored in
    resolve (find (λ u, Some (User.id u) = id) users).

(** ** Transactions *)

(** [Array.prototype.sort(comparefn)]. ECMAScript leaves the algorithm to the
    engine; the model is a stable insertion sort that places an element
    before the first one it does not have to follow ([comparefn x y <= 0]).
    [sorted_permutation_unique] shows that the choice does not matter when
    the timestamps are pairwise distinct. For two entries with the same
    timestamp the comparator of [getTransactionsForUser] answers -1 both
    ways, and their order is the engine's choice, which need not be this
    one; no property below depends on it. *)
Section ArraySort.
Context {A : Type} (comparefn : A → A → Z).

Fixpoint insert_sorted (x : A) (l : list A) : list A :=
  match l with
  | [] => [x]
  | y :: l' =>
      if comparefn x y <=? 0 then x :: y :: l' else y :: insert_sorted x l'
  end.

Definition Array_sort (l : list A) : list A := foldr insert_sorted [] l.
End ArraySort.

(** The comparator of [getTransactionsForUser]:
    [(a, b) => (a.createdAt < b.createdAt ? 1 : -1)]. Strings are compared
    by code unit; the timestamps are ASCII ([toISOString]). *)
Definition newest_first (a b : Transaction.t) : Z :=
  if String.ltb (Transaction.createdAt a) (Transaction.createdAt b) then 1 else -1.

Definition getTransactionsForUser (userId : string) : Async (list Transaction.t) :=
  let* stored := readJson_txs (TX_KEY_PREFIX ++ userId) in
  let txs := default [] stored in
  resolve (Array_sort newest_first txs).

(** The fee when none is supplied. *)
Definition default_fee (amount : float) : float :=
  Math_max 10 (Math_round (amount * 0.015 * 100) / 100)%float.

Definition createTransactionForCurrentUser (params : Params.t) (uuid now : string)
  : Async Transaction.t :=
  let* current := getCurrentUser in
  match current with
  | None => throw "No logged-in user."
  | Some user =>
      let fee := default (default_fee (Params.amount params)) (Params.fee params) in
      let total :=
        match Params.type params with
        | send => (Params.amount params + fee)%float
        | _ => (Params.amount params - fee)%float
        end in
      let newBalance :=
        match Params.type params with
        | send =>
            to_number (toFixed (ToNumber (User.balance user) - total) 2)
        | receive | topup | refund =>
            to_number
              (toFixed (ToNumber (User.balance user) + Params.amount params - fee) 2)
        end in
      let tx :=
        Transaction.make uuid (User.id user) (Params.type params)
          (Params.counterparty params) (Some (Params.amount params)) (Some fee)
          (Some total) (Params.note params) completed now in
      let key := (TX_KEY_PREFIX ++ User.id user)%string in
      let* stored_txs := readJson_txs key in
      let txs := default [] stored_txs in
      writeJson_txs key (tx :: txs);;;
      let* stored_users := readJson_users in
      let users := default [] stored_users in
      match list_find (λ u, User.id u = User.id user) users with
      | Some (idx, found) =>
          writeJson_users (<[idx := User.with_balance found (Some newBalance)]> users)
      | None => resolve ()
      end;;;
      resolve tx
  end.

(** Convenience: the current user's balance. *)
Definition getBalanceForCurrentUser : Async float :=
  let* current := getCurrentUser in
  match current with
  | None => resolve 0%float
  | Some user => resolve (default 0%float (User.balance user))
  end.

(** * Vocabulary of the properties *)

(** ** Views of the stores *)

(** The registry as the operations read it: [readJson(USERS_KEY) ?? []]. *)
Definition registry (s : Storage) : list User.t := default [] (users_item s).

Definition identifiers (s : Storage) : list string :=
  User.identifier <$> registry s.

(** The user [getCurrentUser] resolves to ([getCurrentUser_session_user]). *)
Definition session_user (s : Storage) : option User.t :=
  if truthy (current_user_item s)
  then find (λ u, Some (User.id u) = current_user_item s) (registry s)
  else None.

(** The stores with the session pointer set to [id]. *)
Definition with_session (id : string) (s : Storage) : Storage :=
  {| users_item := users_item s; current_user_item := Some id;
     tx_items := tx_items s; secure_items := secure_items s |}.

(** The user with id [uuid] is the session's user and has balance [b]. *)
Definition session_balance (uuid : string) (b : option float) (s : Storage)
  : Prop :=
  current_user_item s = Some uuid
  ∧ ∃ idx u, list_find (λ u, User.id u = uuid) (registry s) = Some (idx, u)
             ∧ User.balance u = b.

(** ** Reachable states *)

(** The calls that write to the stores, and the states they can reach from
    empty stores. *)
Inductive Call : Type :=
| Call_signupUser (name identifier password uuid now : string)
| Call_loginUser (identifier password : string)
| Call_logout
| Call_createTransaction (params : Params.t) (uuid now : string).

Definition after (c : Call) (s : Storage) : Storage :=
  match c with
  | Call_signupUser name identifier password uuid now =>
      snd (signupUser name identifier password uuid now s)
  | Call_loginUser identifier password => snd (loginUser identifier password s)
  | Call_logout => snd (logout s)
  | Call_createTransaction params uuid now =>
      snd (createTransactionForCurrentUser params uuid now s)
  end.

Inductive reachable : Storage → Prop :=
| reachable_empty : reachable empty_storage
| reachable_after c s : reachable s → reachable (after c s).

(** A caller that awaits one [createTransactionForCurrentUser] call after
    the other, and collects the transactions they return; it returns only
    if every call does. *)
Fixpoint createTransactions (calls : list (Params.t * string * string))
  : Async (list Transaction.t) :=
  match calls with
  | [] => resolve []
  | (params, uuid, now) :: rest =>
      let* tx := createTransactionForCurrentUser params uuid now in
      let* txs := createTransactions rest in
      resolve (tx :: txs)
  end.

(** The transactions a run returned ([] if it threw). *)
Definition returned_list {A} (run : Outcome (list A) * Storage) : list A :=
  match fst run with
  | Returned l => l
  | Thrown _ => []
  end.

(** ** Ordering *)

(** The order a comparator asks for: [x] need not follow [y]. *)
Definition need_not_follow {A} (comparefn : A → A → Z) (x y : A) : Prop :=
  comparefn x y ≤ 0.

Definition older (a b : Transaction.t) : Prop :=
  String.ltb (Transaction.createdAt a) (Transaction.createdAt b) = true.

Definition newer (a b : Transaction.t) : Prop := older b a.

(** ** Fees, totals and balances *)

(** The fee and the total of a call, the balance it computes before
    rounding, and the value that reaches the registry. *)
Definition fee_of (params : Params.t) : float :=
  match Params.fee params with
  | Some fee => fee
  | None => default_fee (Params.amount params)
  end.

Definition total_of (params : Params.t) : float :=
  match Params.type params with
  | send => (Params.amount params + fee_of params)%float
  | _ => (Params.amount params - fee_of params)%float
  end.

Definition unrounded_balance (params : Params.t) (old : option float) : float :=
  match Params.type params with
  | send => (ToNumber old - (Params.amount params + fee_of params))%float
  | _ => (ToNumber old + Params.amount params - fee_of params)%float
  end.

Definition persisted_balance (params : Params.t) (old : option float)
  : option float :=
  JSON_number (to_number (toFixed (unrounded_balance params old) 2)).


(** The net effect of a transaction, in the specification's words: minus
    total for send, plus amount minus fee for the other types; and their sum
    from 0, in the order of the calls. *)
Definition net_effect (tx : Transaction.t) : float :=
  match Transaction.type tx with
  | send => (- ToNumber (Transaction.total tx))%float
  | receive | topup | refund =>
      (ToNumber (Transaction.amount tx) - ToNumber (Transaction.fee tx))%float
  end.

Definition sum_of_net_effects (txs : list Transaction.t) : float :=
  foldl (λ b tx, (b + net_effect tx)%float) 0%float txs.

(** What the code does with a balance and one transaction: it applies the
    net effect, rounds with [toFixed(2)], and persists through JSON. *)
Definition apply_transaction (b : option float) (tx : Transaction.t)
  : option float :=
  JSON_number
    (to_number
       (toFixed
          match Transaction.type tx with
          | send => (ToNumber b - ToNumber (Transaction.total tx))%float
          | receive | topup | refund =>
              (ToNumber b + ToNumber (Transaction.amount tx)
               - ToNumber (Transaction.fee tx))%float
          end 2)).

(** The Number of the decimal [n / 100]: a balance of [n] cents. *)
Definition cents (n : Z) : float := to_number (Str_Digits (n <? 0) (Z.abs n) 2).





(** A Number with no fractional part: its value is [m * 2^e] with [0 <= e]. *)
Definition integral (x : float) : Prop :=
  ∃ sign m e, Prim2SF x = S754_finite sign m e ∧ 0 ≤ e.

(** What can reach the registry as a balance: [null]; the Number of a
    decimal with two fractional digits (an optional "-", the digits of [n],
    a point before the last two), as JSON keeps it; or a Number without
    fractional part. *)
Definition at_most_two_decimals (b : option float) : Prop :=
  b = None
  ∨ (∃ negative n, b = JSON_number (to_number (Str_Digits negative n 2)))
  ∨ (∃ x, b = Some x ∧ integral x).

(** A Number that can be read with at most two decimal places: the Number
    of a decimal with two fractional digits, as JSON keeps it, or a Number
    without fractional part. *)
Definition two_decimals (b : float) : Prop :=
  (∃ negative n, JSON_number (to_number (Str_Digits negative n 2)) = Some b)
  ∨ integral b.

(** A binary64 value that is neither NaN nor an infinity. *)
Definition zero_or_finite (r : spec_float) : Prop :=
  match r with
  | S754_zero _ | S754_finite _ _ _ => True
  | _ => False
  end.

(** ** Example states *)

Definition ada : User.t :=
  User.make "u1" "Ada" "ada@x.com" (Some 0%float) "2024-01-01T00:00:00.000Z".

(** The stores after Ada signed up. *)
Definition ada_storage : Storage :=
  snd (signupUser "Ada" "ada@x.com" "secret1" "u1" "2024-01-01T00:00:00.000Z"
         empty_storage).

(** Then, a send of 50 with fee 5. *)
Definition paid_storage : Storage :=
  snd (createTransactionForCurrentUser
         (Params.make send (Some "Bob") 50 (Some 5%float) None) "t1"
         "2024-01-01T00:00:01.000Z" ada_storage).

(** Or, instead, two top-ups whose sum overflows: the balance is then
    [Infinity], which JSON writes as [null]. *)
Definition overflow_storage : Storage :=
  let huge := Params.make topup None 1e308 (Some 0%float) None in
  snd (createTransactionForCurrentUser huge "t2" "2024-01-01T00:00:02.000Z"
         (snd (createTransactionForCurrentUser huge "t1" "2024-01-01T00:00:01.000Z"
                 ada_storage))).


Definition ada_null_balance : User.t :=
  User.make "u1" "Ada" "ada@x.com" None "2024-01-01T00:00:00.000Z".

(** A user who signed up with the empty password, logged out. *)
Definition empty_password_storage : Storage :=
  snd (logout
         (snd (signupUser "Ada" "ada@x.com" "" "u1" "2024-01-01T00:00:00.000Z"
                 empty_storage))).

(** A session pointer that names no user of the registry. *)
Definition dangling_storage : Storage :=
  {| users_item := Some []; current_user_item := Some "ghost";
     tx_items := ∅; secure_items := ∅ |}.

(** A log stored out of order. *)
Definition tx_at (id now : string) : Transaction.t :=
  Transaction.make id "u1" topup None (Some 100%float) (Some 10%float)
    (Some 90%float) None completed now.

Definition shuffled_log_storage : Storage :=
  {| users_item := None; current_user_item := None;
     tx_items :=
       {[ (TX_KEY_PREFIX ++ "u1")%string :=
            [tx_at "t2" "2024-01-01T00:00:02.000Z";
             tx_at "t3" "2024-01-01T00:00:03.000Z";
             tx_at "t1" "2024-01-01T00:00:01.000Z"] ]};
     secure_items := ∅ |}.

(** ** Vocabulary of the further properties *)

(** The message with which a run threw, if it did. *)
Definition failure {A} (run : Outcome A * Storage) : option string :=
  match fst run with
  | Returned _ => None
  | Thrown message => Some message
  end.

Definition failure_of (c : Call) (s : Storage) : option string :=
  match c with
  | Call_signupUser name identifier password uuid now =>
      failure (signupUser name identifier password uuid now s)
  | Call_loginUser identifier password => failure (loginUser identifier password s)
  | Call_logout => failure (logout s)
  | Call_createTransaction params uuid now =>
      failure (createTransactionForCurrentUser params uuid now s)
  end.

(** The messages of the module's own [throw new Error(...)] statements
    (storage.ts lines 103, 142, 145 and 187), and the ones a call can
    throw. *)
Definition own_errors : list string :=
  ["A user with that identifier already exists.";
   "No user found with that identifier.";
   "Incorrect password.";
   "No logged-in user."]%string.

Definition own_errors_of (c : Call) : list string :=
  match c with
  | Call_signupUser _ _ _ _ _ =>
      ["A user with that identifier already exists."]%string
  | Call_loginUser _ _ =>
      ["No user found with that identifier."; "Incorrect password."]%string
  | Call_logout => []
  | Call_createTransaction _ _ _ => ["No logged-in user."]%string
  end.

(** The stores hold what [JSON.parse] returns: every record is unchanged by
    a further JSON round trip. *)
Definition JSON_normal (s : Storage) : Prop :=
  Forall (λ u, JSON_user u = u) (registry s)
  ∧ ∀ key l, tx_items s !! key = Some l → Forall (λ t, JSON_transaction t = t) l.

(** The log stored for a user id, as the operations read it. *)
Definition log_of (userId : string) (s : Storage) : list Transaction.t :=
  default [] (tx_items s !! (TX_KEY_PREFIX ++ userId)%string).

(** [now] is later than the timestamp of [t]. *)
Definition before (now : string) (t : Transaction.t) : Prop :=
  String.ltb (Transaction.createdAt t) now = true.

(** What of a user never changes: id, name, identifier, creation time. *)
Definition identity (u : User.t) : string * string * string * string :=
  (User.id u, User.name u, User.identifier u, User.createdAt u).

(** The stores after a sequence of calls. *)
Definition after_all (cs : list Call) (s : Storage) : Storage :=
  foldl (λ s c, after c s) s cs.

(** The call is a signup that generates the id [uuid]. *)
Definition signs_up_as (uuid : string) (c : Call) : Prop :=
  match c with
  | Call_signupUser _ _ _ uuid' _ => uuid' = uuid
  | _ => False
  end.

(** * The application state controller ([src/context/AppContext.tsx])

    The provider keeps an in-memory projection of the stores and updates it
    by dispatching actions to a reducer. Its asynchronous actions run on
    the pair of that state and the stores; [dispatch] applies the reducer
    (React applies the dispatched actions in order, and no action reads
    the state). Console output is left out. *)

Module AppState.
Record t : Type := make {
  initialized : bool;
  loading : bool;
  user : option User.t;
  balance : option float;              (* number | null *)
  transactions : list Transaction.t;   (* newest first *)
  error : option string;
}.
End AppState.

Inductive AppAction : Type :=
| INIT_START
| INIT_SUCCESS (user : option User.t) (balance : option float)
    (transactions : list Transaction.t)
| SET_LOADING (payload : bool)
| SET_ERROR (payload : option string)
| LOGIN_SUCCESS (user : User.t) (balance : option float)
    (transactions : list Transaction.t)
| LOGOUT
| ADD_TRANSACTION (payload : Transaction.t)
| REFRESH_BALANCE (payload : float)
| REFRESH_TRANSACTIONS (payload : list Transaction.t).

Module AppContext.

Definition initialState : AppState.t :=
  AppState.make false false None None [] None.

Definition reducer (state : AppState.t) (action : AppAction) : AppState.t :=
  match action with
  | INIT_START =>
      AppState.make (AppState.initialized state) true (AppState.user state)
        (AppState.balance state) (AppState.transactions state) None
  | INIT_SUCCESS user balance transactions =>
      AppState.make true false user balance transactions None
  | SET_LOADING payload =>
      AppState.make (AppState.initialized state) payload (AppState.user state)
        (AppState.balance state) (AppState.transactions state)
        (AppState.error state)
  | SET_ERROR payload =>
      AppState.make (AppState.initialized state) false (AppState.user state)
        (AppState.balance state) (AppState.transactions state) payload
  | LOGIN_SUCCESS user balance transactions =>
      AppState.make (AppState.initialized state) false (Some user) balance
        transactions None
  | LOGOUT =>
      AppState.make true (AppState.loading initialState)
        (AppState.user initialState) (AppState.balance initialState)
        (AppState.transactions initialState) (AppState.error initialState)
  | ADD_TRANSACTION payload =>
      AppState.make (AppState.initialized state) (AppState.loading state)
        (AppState.user state) (AppState.balance state)
        (payload :: AppState.transactions state) (AppState.error state)
  | REFRESH_BALANCE payload =>
      AppState.make (AppState.initialized state) (AppState.loading state)
        (AppState.user state) (Some payload) (AppState.transactions state)
        (AppState.error state)
  | REFRESH_TRANSACTIONS payload =>
      AppState.make (AppState.initialized state) (AppState.loading state)
        (AppState.user state) (AppState.balance state) payload
        (AppState.error state)
  end.

(** An action of the provider: it runs on the in-memory state and the
    stores, and returns or throws. *)
Definition Action (A : Type) : Type :=
  AppState.t * Storage → Outcome A * (AppState.t * Storage).

Definition resolved {A} (a : A) : Action A := λ w, (Returned a, w).
Definition rethrow {A} (message : string) : Action A := λ w, (Thrown message, w).
Definition and_then {A B} (m : Action A) (k : A → Action B) : Action B :=
  λ w, match m w with
       | (Returned a, w') => k a w'
       | (Thrown e, w') => (Thrown e, w')
       end.

Notation "'let+' x := m 'in' k" := (and_then m (λ x, k))
  (at level 10, x name, m at level 100, k at level 200).
Notation "m ;+ k" := (and_then m (λ _, k))
  (at level 100, k at level 200, right associativity).

Definition dispatch (action : AppAction) : Action unit :=
  λ w, (Returned (), (reducer (fst w) action, snd w)).

(** A call into [src/lib/storage.ts]. *)
Definition storage {A} (m : Async A) : Action A :=
  λ w, match m (snd w) with (r, s') => (r, (fst w, s')) end.

(** [try { body } catch (e) { handler(e.message) }]. *)
Definition try_catch {A} (body : Action A) (handler : string → Action A)
  : Action A :=
  λ w, match body w with
       | (Returned a, w') => (Returned a, w')
       | (Thrown e, w') => handler e w'
       end.

(** [try { body } finally { cleanup }]. *)
Definition try_finally {A} (body : Action A) (cleanup : Action unit) : Action A :=
  λ w, match body w with
       | (r, w') =>
           match cleanup w' with
           | (Returned _, w'') => (r, w'')
           | (Thrown e, w'') => (Thrown e, w'')
           end
       end.

(** [Promise.all([a, b])] of two calls that only read the stores: the order
    in which their reads interleave does not show. *)
Definition Promise_all {A B} (a : Async A) (b : Async B) : Action (A * B) :=
  let+ x := storage a in
  let+ y := storage b in
  resolved (x, y).

(** [(e && e.message) || String(e)] for an [Error] with that message. *)
Definition message_or_string (message : string) : string :=
  if String.eqb message "" then "Error" else message.

Definition loadFromStorage : Action unit :=
  dispatch INIT_START;+
  try_catch
    (let+ user := storage getCurrentUser in
     match user with
     | None => dispatch (INIT_SUCCESS None None [])
     | Some user =>
         let+ both := Promise_all (getTransactionsForUser (User.id user))
                        getBalanceForCurrentUser in
         dispatch (INIT_SUCCESS (Some user) (Some (snd both)) (fst both))
     end)
    (λ e, dispatch (SET_ERROR (Some (message_or_string e)))).

Definition signup (name identifier password : string) (uuid now : string)
  : Action User.t :=
  dispatch (SET_LOADING true);+
  try_catch
    (let+ user := storage (signupUser name identifier password uuid now) in
     let+ txs := storage (getTransactionsForUser (User.id user)) in
     let+ bal := storage getBalanceForCurrentUser in
     dispatch (LOGIN_SUCCESS user (Some bal) txs);+
     resolved user)
    (λ e, dispatch (SET_ERROR (Some e));+ rethrow e).

Definition login (identifier password : string) : Action User.t :=
  dispatch (SET_LOADING true);+
  try_catch
    (let+ user := storage (loginUser identifier password) in
     let+ txs := storage (getTransactionsForUser (User.id user)) in
     let+ bal := storage getBalanceForCurrentUser in
     dispatch (LOGIN_SUCCESS user (Some bal) txs);+
     resolved user)
    (λ e, dispatch (SET_ERROR (Some e));+ rethrow e).

(** [logout], for the [storageLogout] that the provider imports: the
    [logout] of [src/lib/storage.ts]. *)
Definition logout_via (storageLogout : Async unit) : Action unit :=
  dispatch (SET_LOADING true);+
  try_catch
    (storage storageLogout;+
     dispatch LOGOUT)
    (λ e, dispatch (SET_ERROR (Some e));+ rethrow e).

Definition logout : Action unit := logout_via logout.

Definition refresh : Action unit :=
  dispatch (SET_LOADING true);+
  try_finally
    (try_catch
       (let+ user := storage getCurrentUser in
        match user with
        | None => dispatch (INIT_SUCCESS None None [])
        | Some user =>
            let+ both := Promise_all (getTransactionsForUser (User.id user))
                           getBalanceForCurrentUser in
            dispatch (REFRESH_TRANSACTIONS (fst both));+
            dispatch (REFRESH_BALANCE (snd both));+
            dispatch (LOGIN_SUCCESS user (Some (snd both)) (fst both))
        end)
       (λ e, dispatch (SET_ERROR (Some e))))
    (dispatch (SET_LOADING false)).

Definition topUp (amount : float) (fee : option float) (note : option string)
    (uuid now : string) : Action Transaction.t :=
  dispatch (SET_LOADING true);+
  try_catch
    (let+ created :=
       storage (createTransactionForCurrentUser
                  (Params.make topup (Some "TopUp"%string) amount fee
                     (Some (default "Top up"%string note)))
                  uuid now) in
     dispatch (ADD_TRANSACTION created);+
     let+ bal := storage getBalanceForCurrentUser in
     dispatch (REFRESH_BALANCE bal);+
     dispatch (SET_LOADING false);+
     resolved created)
    (λ e, dispatch (SET_ERROR (Some e));+
          dispatch (SET_LOADING false);+
          rethrow e).

Definition send (amount : float) (fee : option float)
    (counterparty note : option string) (uuid now : string)
  : Action Transaction.t :=
  dispatch (SET_LOADING true);+
  try_catch
    (let+ created :=
       storage (createTransactionForCurrentUser
                  (Params.make send counterparty amount fee note)
                  uuid now) in
     dispatch (ADD_TRANSACTION created);+
     let+ bal := storage getBalanceForCurrentUser in
     dispatch (REFRESH_BALANCE bal);+
     dispatch (SET_LOADING false);+
     resolved created)
    (λ e, dispatch (SET_ERROR (Some e));+
          dispatch (SET_LOADING false);+
          rethrow e).

Definition getTransactions (state : AppState.t) : list Transaction.t :=
  AppState.transactions state.

End AppContext.

(** What the provider shows of the stores: the session user's balance as
    [getBalanceForCurrentUser] returns it, and a user's log as
    [getTransactionsForUser] returns it. *)
Definition shown_balance (s : Storage) : float :=
  match session_user s with
  | Some user => default 0%float (User.balance user)
  | None => 0%float
  end.

Definition shown_transactions (userId : string) (s : Storage)
  : list Transaction.t :=
  Array_sort newest_first (log_of userId s).

(** The in-memory state that mirrors the stores. *)
Definition mirror (initialized : bool) (s : Storage) : AppState.t :=
  match session_user s with
  | None => AppState.make true false None None [] None
  | Some user =>
      AppState.make initialized false (Some user) (Some (shown_balance s))
        (shown_transactions (User.id user) s) None
  end.

(** * Properties *)

(** ** JavaScript numbers: the values the engines print *)

(** [floor_plus_half m e] is the integer nearest to [m * 2^e], the larger
    one on a tie: [k - 1/2 <= m * 2^e < k + 1/2]. *)
Lemma floor_plus_half_nearest m e :
  e < 0 →
  let k := floor_plus_half m e in
  (2 * k - 1) * 2 ^ (- e) ≤ 2 * m < (2 * k + 1) * 2 ^ (- e).
Proof.
  intros He k. subst k. unfold floor_plus_half.
  destruct (Z.leb_spec 0 e) as [?|_]; [lia|].
  assert (0 < 2 ^ (- e)) as Hpos by (apply Z.pow_pos_nonneg; lia).
  replace (1 - e) with (Z.succ (- e)) by lia.
  rewrite Z.pow_succ_r by lia.
  set (d := 2 ^ (- e)) in *.
  pose proof (Z.div_mod (2 * m + d) (2 * d) ltac:(lia)) as Hdiv.
  pose proof (Z.mod_pos_bound (2 * m + d) (2 * d) ltac:(lia)) as Hmod.
  nia.
Qed.

Example toFixed_tie_rounds_up :
  toFixed 0.125 2 = Str_Digits false 13 2
  ∧ to_number (toFixed 0.125 2) = 0.13%float
  ∧ to_number (toFixed (-54.875) 2) = (-54.88)%float.
Proof. split_and!; vm_compute; reflexivity. Qed.

Example toFixed_binary_representation :
  to_number (toFixed 1.005 2) = 1%float
  ∧ to_number (toFixed (0.1 + 0.2) 2) = 0.3%float
  ∧ to_number (toFixed (-0.001) 2) = neg_zero
  ∧ to_number (toFixed 1e21 2) = 1e21%float.
Proof. split_and!; vm_compute; reflexivity. Qed.

Example Math_round_ties :
  Math_round 2.5 = 3%float ∧ Math_round (-2.5) = (-2)%float
  ∧ Math_round (-0.5) = neg_zero ∧ Math_round 0.49999999999999994 = 0%float.
Proof. split_and!; vm_compute; reflexivity. Qed.

Example default_fee_values :
  default_fee 100 = 10%float ∧ default_fee 1000 = 15%float
  ∧ default_fee 667 = 10%float ∧ default_fee 1234.56 = 18.52%float.
Proof. split_and!; vm_compute; reflexivity. Qed.

Example JSON_number_values :
  JSON_number neg_zero = Some 0%float ∧ JSON_number nan = None
  ∧ JSON_number infinity = None ∧ JSON_number 0.13 = Some 0.13%float.
Proof. split_and!; vm_compute; reflexivity. Qed.

(** ** The keys never collide *)

Lemma keys_disjoint (id id' : string) :
  (TX_KEY_PREFIX ++ id)%string ≠ USERS_KEY
  ∧ (TX_KEY_PREFIX ++ id)%string ≠ CURRENT_USER_KEY
  ∧ USERS_KEY ≠ CURRENT_USER_KEY
  ∧ ((TX_KEY_PREFIX ++ id)%string = (TX_KEY_PREFIX ++ id')%string → id = id')
  ∧ ((SECRET_KEY_PREFIX ++ id)%string = (SECRET_KEY_PREFIX ++ id')%string → id = id').
Proof.
  unfold TX_KEY_PREFIX, SECRET_KEY_PREFIX, USERS_KEY, CURRENT_USER_KEY.
  split_and!; simpl; intros H; by simplify_eq.
Qed.

(** ** The session's user, as a view of the stores *)

Lemma getCurrentUser_session_user s :
  getCurrentUser s = (Returned (session_user s), s).
Proof.
  unfold getCurrentUser, session_user, await, getItem_current_user,
    readJson_users, resolve, registry.
  by destruct (truthy (current_user_item s)).
Qed.

Lemma session_user_unset s :
  current_user_item s = None → session_user s = None.
Proof. unfold session_user. by intros ->. Qed.

Lemma find_None_Forall {A} (P : A → Prop) `{∀ x, Decision (P x)} l :
  find P l = None ↔ Forall (λ x, ¬ P x) l.
Proof. unfold find. rewrite fmap_None. apply list_find_None. Qed.

(** ** No session: [createTransactionForCurrentUser] *)

(** C7. With the session pointer unset, [createTransactionForCurrentUser]
    throws "No logged-in user." and leaves the registry, the transaction
    logs, the session pointer and the secret store as they were. *)
Theorem create_without_session_throws params uuid now s :
  current_user_item s = None →
  createTransactionForCurrentUser params uuid now s
  = (Thrown "No logged-in user.", s).
Proof.
  intros Hnone. unfold createTransactionForCurrentUser, await.
  by rewrite getCurrentUser_session_user, session_user_unset.
Qed.

Lemma create_without_session_throws_witness :
  current_user_item empty_storage = None
  ∧ createTransactionForCurrentUser
      (Params.make topup None 100 None None) "t1" "2024-01-01T00:00:00.000Z"
      empty_storage
    = (Thrown "No logged-in user.", empty_storage).
Proof.
  split; [reflexivity |].
  apply (create_without_session_throws
           (Params.make topup None 100 None None) "t1"
           "2024-01-01T00:00:00.000Z" empty_storage).
  reflexivity.
Defined.

(** ** [getCurrentUser] *)

(** C9, as stated, fails: with the session pointer set to an id that no
    user of the registry has, [getCurrentUser] returns [null] like any
    other call; nothing is thrown. *)
Lemma getCurrentUser_dangling_returns_null :
  current_user_item dangling_storage = Some "ghost"
  ∧ Forall (λ u, User.id u ≠ "ghost") (registry dangling_storage)
  ∧ getCurrentUser dangling_storage = (Returned None, dangling_storage).
Proof. split_and!; [reflexivity | constructor | reflexivity]. Qed.

(** C9, amended. [getCurrentUser] returns [null] when the session pointer
    is unset, and also when it is set but no user of the registry has that
    id; in both cases the stores are untouched. *)
Theorem getCurrentUser_null s :
  (current_user_item s = None → getCurrentUser s = (Returned None, s))
  ∧ (∀ id, current_user_item s = Some id →
       Forall (λ u, User.id u ≠ id) (registry s) →
       getCurrentUser s = (Returned None, s)).
Proof.
  rewrite getCurrentUser_session_user. split.
  - intros H. by rewrite session_user_unset.
  - intros id Hid Hall. unfold session_user. rewrite Hid.
    destruct (truthy (Some id)); [|done].
    replace (find _ _) with (@None User.t); [done|].
    symmetry. apply find_None_Forall.
    eapply Forall_impl; [exact Hall|]. intros u Hne. congruence.
Qed.

Lemma getCurrentUser_null_witness :
  getCurrentUser empty_storage = (Returned None, empty_storage)
  ∧ getCurrentUser dangling_storage = (Returned None, dangling_storage).
Proof.
  split.
  - apply (proj1 (getCurrentUser_null empty_storage)). reflexivity.
  - apply (proj2 (getCurrentUser_null dangling_storage) "ghost");
      [reflexivity | constructor].
Defined.

(** ** [getBalanceForCurrentUser] *)

(** C8, as stated, fails: there is a session, its user is in the registry,
    the persisted balance field is [null], and the call returns the Number
    [0], which is not that field. *)
Lemma getBalance_null_balance_returns_zero :
  getCurrentUser overflow_storage = (Returned (Some ada_null_balance), overflow_storage)
  ∧ User.balance ada_null_balance = None
  ∧ getBalanceForCurrentUser overflow_storage = (Returned 0%float, overflow_storage).
Proof. split_and!; vm_compute; reflexivity. Qed.

(** C8, amended. [getBalanceForCurrentUser] never throws and never writes.
    It returns 0 when [getCurrentUser] yields no user (the session pointer is
    unset, or names no user of the registry) and when the user's persisted
    balance is [null]; otherwise it returns exactly the persisted balance. *)
Theorem getBalanceForCurrentUser_spec s :
  (current_user_item s = None →
     getBalanceForCurrentUser s = (Returned 0%float, s))
  ∧ (getCurrentUser s = (Returned None, s) →
     getBalanceForCurrentUser s = (Returned 0%float, s))
  ∧ (∀ user, getCurrentUser s = (Returned (Some user), s) →
       getBalanceForCurrentUser s
       = (Returned (match User.balance user with
                    | Some b => b
                    | None => 0%float
                    end), s)).
Proof.
  unfold getBalanceForCurrentUser, await.
  rewrite getCurrentUser_session_user. split_and!.
  - intros H. by rewrite session_user_unset.
  - intros [= ->]. done.
  - intros user [= ->]. unfold resolve. by destruct (User.balance user).
Qed.

Lemma getBalanceForCurrentUser_spec_witness :
  getBalanceForCurrentUser empty_storage = (Returned 0%float, empty_storage)
  ∧ getBalanceForCurrentUser dangling_storage = (Returned 0%float, dangling_storage)
  ∧ getBalanceForCurrentUser paid_storage = (Returned (-55)%float, paid_storage)
  ∧ getBalanceForCurrentUser overflow_storage = (Returned 0%float, overflow_storage).
Proof.
  split_and!.
  - apply (proj1 (getBalanceForCurrentUser_spec empty_storage)). reflexivity.
  - apply (proj1 (proj2 (getBalanceForCurrentUser_spec dangling_storage))).
    reflexivity.
  - apply (proj2 (proj2 (getBalanceForCurrentUser_spec paid_storage))
             (User.make "u1" "Ada" "ada@x.com" (Some (-55)%float)
                "2024-01-01T00:00:00.000Z")).
    vm_compute. reflexivity.
  - apply (proj2 (proj2 (getBalanceForCurrentUser_spec overflow_storage))
             ada_null_balance).
    vm_compute. reflexivity.
Defined.

(** ** Signup and the uniqueness of identifiers *)

Lemma identifier_JSON_users (l : list User.t) :
  User.identifier <$> (JSON_user <$> l) = User.identifier <$> l.
Proof. rewrite <- list_fmap_compose. by apply list_fmap_ext. Qed.

Lemma signupUser_cases name identifier password uuid now s :
  match find (λ u, User.identifier u = identifier) (registry s) with
  | Some _ =>
      signupUser name identifier password uuid now s
      = (Thrown "A user with that identifier already exists.", s)
  | None =>
      let user := User.make uuid name identifier (Some 0%float) now in
      signupUser name identifier password uuid now s
      = (Returned user,
         {| users_item := Some (JSON_user <$> (registry s ++ [user]));
            current_user_item := Some uuid;
            tx_items := <[(TX_KEY_PREFIX ++ uuid)%string := []]> (tx_items s);
            secure_items :=
              <[(SECRET_KEY_PREFIX ++ uuid)%string := password]> (secure_items s) |})
  end.
Proof.
  unfold signupUser, await, readJson_users, registry.
  by destruct (find _ _).
Qed.

Lemma loginUser_registry identifier password s :
  users_item (snd (loginUser identifier password s)) = users_item s.
Proof.
  unfold loginUser, await, readJson_users, SecureStore_getItemAsync.
  destruct (find _ _); [|done]. simpl.
  by destruct (negb _ || negb _).
Qed.

Lemma createTransaction_identifiers params uuid now s :
  identifiers (snd (createTransactionForCurrentUser params uuid now s))
  = identifiers s.
Proof.
  unfold createTransactionForCurrentUser, await.
  rewrite getCurrentUser_session_user.
  destruct (session_user s) as [user|]; [|done]. simpl.
  fold (registry s).
  destruct (list_find _ (registry s)) as [[idx found]|] eqn:Hfind; [|done].
  simpl. unfold identifiers, registry at 1. simpl.
  rewrite identifier_JSON_users, list_fmap_insert. simpl.
  apply list_find_Some in Hfind as (Hidx & _).
  apply list_insert_id. by rewrite list_lookup_fmap, Hidx.
Qed.

(** In every reachable state the identifiers of the registry are pairwise
    distinct. *)
Lemma reachable_identifiers_NoDup s : reachable s → NoDup (identifiers s).
Proof.
  induction 1 as [|c s Hs IH]; [constructor|].
  destruct c as [name identifier password uuid now|identifier password|
                 |params uuid now]; simpl.
  - pose proof (signupUser_cases name identifier password uuid now s) as Hc.
    destruct (find _ _) eqn:Hfind; rewrite Hc; simpl; [done|].
    unfold identifiers, registry at 1. simpl.
    rewrite identifier_JSON_users, fmap_app. simpl.
    apply NoDup_app. split_and!; [done| |apply NoDup_singleton].
    intros x Hx ->%list_elem_of_singleton.
    apply list_elem_of_fmap in Hx as (u & Hu & Hin).
    apply find_None_Forall in Hfind.
    by eapply Forall_forall in Hfind.
  - unfold identifiers, registry. by rewrite loginUser_registry.
  - done.
  - by rewrite createTransaction_identifiers.
Qed.

(** C4. A signup whose identifier some user of the registry already has
    (exact string equality) throws "A user with that identifier already
    exists." and leaves the registry, the secret store, the session pointer
    and the transaction logs as they were; and after a signup that returns,
    no two users of the registry share an identifier. *)
Theorem signup_identifier_unique name identifier password uuid now s :
  (∀ u, u ∈ registry s → User.identifier u = identifier →
     signupUser name identifier password uuid now s
     = (Thrown "A user with that identifier already exists.", s))
  ∧ (∀ user s', reachable s →
       signupUser name identifier password uuid now s = (Returned user, s') →
       NoDup (identifiers s')
       ∧ ∀ i j u v, registry s' !! i = Some u → registry s' !! j = Some v →
           User.identifier u = User.identifier v → i = j).
Proof.
  split.
  - intros u Hin Hid.
    pose proof (signupUser_cases name identifier password uuid now s) as Hc.
    destruct (find _ _) eqn:Hfind; [done|].
    apply find_None_Forall in Hfind.
    by eapply Forall_forall in Hfind.
  - intros user s' Hs Hrun.
    assert (NoDup (identifiers s')) as Hnd.
    { replace s' with (after (Call_signupUser name identifier password uuid now) s)
        by (simpl; by rewrite Hrun).
      by apply reachable_identifiers_NoDup, reachable_after. }
    split; [done|]. intros i j u v Hi Hj Huv.
    eapply NoDup_lookup; [exact Hnd| |];
      unfold identifiers; rewrite list_lookup_fmap.
    + by rewrite Hi.
    + rewrite Hj. simpl. by rewrite Huv.
Qed.

Lemma ada_storage_reachable : reachable ada_storage.
Proof.
  exact (reachable_after
           (Call_signupUser "Ada" "ada@x.com" "secret1" "u1"
              "2024-01-01T00:00:00.000Z") _ reachable_empty).
Qed.

Lemma signup_identifier_unique_witness :
  signupUser "Eve" "ada@x.com" "secret2" "u2" "2024-01-02T00:00:00.000Z"
    ada_storage
  = (Thrown "A user with that identifier already exists.", ada_storage)
  ∧ NoDup (identifiers
             (snd (signupUser "Bob" "bob@x.com" "secret3" "u2"
                     "2024-01-02T00:00:00.000Z" ada_storage))).
Proof.
  split.
  - apply (proj1 (signup_identifier_unique "Eve" "ada@x.com" "secret2" "u2"
                    "2024-01-02T00:00:00.000Z" ada_storage)
             (User.make "u1" "Ada" "ada@x.com" (Some 0%float)
                "2024-01-01T00:00:00.000Z")).
    + vm_compute. apply list_elem_of_here.
    + reflexivity.
  - apply (proj2 (signup_identifier_unique "Bob" "bob@x.com" "secret3" "u2"
                    "2024-01-02T00:00:00.000Z" ada_storage)
             (User.make "u2" "Bob" "bob@x.com" (Some 0%float)
                "2024-01-02T00:00:00.000Z")).
    + apply ada_storage_reachable.
    + vm_compute. reflexivity.
Defined.

(** ** Login *)

(** C5, as stated, fails: the stored secret is exactly the supplied
    password (both are the empty string), yet login throws "Incorrect
    password.", because [!secret] holds for the empty string too. *)
Lemma login_empty_secret_rejected :
  secure_items empty_password_storage !! (SECRET_KEY_PREFIX ++ "u1")%string
  = Some ""%string
  ∧ loginUser "ada@x.com" "" empty_password_storage
    = (Thrown "Incorrect password.", empty_password_storage).
Proof. split; vm_compute; reflexivity. Qed.

(** C5, amended. For an identifier that a user of the registry has (the
    first such user): when the stored secret for that user's id is absent,
    empty, or not exactly the supplied password, login throws "Incorrect
    password." and the stores, the session pointer among them, are as they
    were; when it is non-empty and exactly the supplied password, login sets
    the session pointer to that user's id, changes nothing else, and returns
    that user. *)
Theorem login_credential_gate identifier password user s :
  find (λ u, User.identifier u = identifier) (registry s) = Some user →
  let secret := secure_items s !! (SECRET_KEY_PREFIX ++ User.id user)%string in
  ((secret = None ∨ secret = Some ""%string ∨ secret ≠ Some password) →
     loginUser identifier password s = (Thrown "Incorrect password.", s))
  ∧ (secret = Some password → password ≠ ""%string →
     loginUser identifier password s
     = (Returned user, with_session (User.id user) s)).
Proof.
  intros Hfind secret.
  unfold loginUser, await, readJson_users, SecureStore_getItemAsync.
  fold (registry s). rewrite Hfind. simpl. fold secret. split.
  - intros [-> | [-> | Hne]]; [done..|].
    rewrite (bool_decide_eq_false_2 _ Hne). simpl.
    by rewrite orb_true_r.
  - intros -> Hne. simpl.
    rewrite bool_decide_eq_true_2 by done.
    destruct (String.eqb_spec password ""); [done|]. done.
Qed.

Lemma login_credential_gate_witness :
  let s := snd (logout ada_storage) in
  let ada := User.make "u1" "Ada" "ada@x.com" (Some 0%float)
               "2024-01-01T00:00:00.000Z" in
  loginUser "ada@x.com" "secret2" s = (Thrown "Incorrect password.", s)
  ∧ loginUser "ada@x.com" "secret1" s = (Returned ada, with_session "u1" s).
Proof.
  pose proof (login_credential_gate "ada@x.com" "secret2"
                (User.make "u1" "Ada" "ada@x.com" (Some 0%float)
                   "2024-01-01T00:00:00.000Z")
                (snd (logout ada_storage)) eq_refl) as Hwrong.
  pose proof (login_credential_gate "ada@x.com" "secret1"
                (User.make "u1" "Ada" "ada@x.com" (Some 0%float)
                   "2024-01-01T00:00:00.000Z")
                (snd (logout ada_storage)) eq_refl) as Hright.
  split.
  - apply (proj1 Hwrong). right. right. vm_compute. intros [=].
  - apply (proj2 Hright); [vm_compute; reflexivity | intros [=]].
Defined.

(** ** Newest first *)

(** The order of strings that [<] decides. *)
Section StringOrder.
Implicit Types a b c : string.

Lemma ltb_lt a b : String.ltb a b = true ↔ String_as_OT.lt a b.
Proof.
  rewrite <- String_as_OT.cmp_lt. unfold String.ltb, String_as_OT.cmp.
  destruct (String.compare a b); split; congruence.
Qed.

Lemma ltb_irrefl a : String.ltb a a = false.
Proof.
  destruct (String.ltb a a) eqn:H; [|done].
  apply ltb_lt, String_as_OT.lt_not_eq in H. by destruct H.
Qed.

Lemma ltb_trans a b c :
  String.ltb a b = true → String.ltb b c = true → String.ltb a c = true.
Proof. rewrite !ltb_lt. apply String_as_OT.lt_trans. Qed.

Lemma ltb_asym a b : String.ltb a b = true → String.ltb b a = false.
Proof.
  intros Hab. destruct (String.ltb b a) eqn:Hba; [|done].
  pose proof (ltb_trans _ _ _ Hab Hba) as H. by rewrite ltb_irrefl in H.
Qed.

Lemma ltb_trichotomy a b :
  String.ltb a b = false → String.ltb b a = false → a = b.
Proof.
  unfold String.ltb. rewrite (String.compare_antisym a b).
  destruct (String.compare b a) eqn:Hc; simpl; [|done..].
  intros _ _. symmetry. by apply String.compare_eq_iff.
Qed.

Lemma not_ltb_trans a b c :
  String.ltb a b = false → String.ltb b c = false → String.ltb a c = false.
Proof.
  intros Hab Hbc. destruct (String.ltb a c) eqn:Hac; [|done].
  destruct (String.ltb b a) eqn:Hba.
  - by rewrite (ltb_trans _ _ _ Hba Hac) in Hbc.
  - rewrite (ltb_trichotomy _ _ Hab Hba) in Hac. congruence.
Qed.
End StringOrder.

(** The insertion sort returns a permutation, ordered by the comparator
    when "need not follow" is total and transitive. *)
Section ArraySortCorrect.
Context {A : Type} (comparefn : A → A → Z).

Lemma insert_sorted_Permutation x l : insert_sorted comparefn x l ≡ₚ x :: l.
Proof.
  induction l as [|y l IH]; simpl; [done|].
  destruct (comparefn x y <=? 0); [done|].
  by rewrite IH, Permutation_swap.
Qed.

Lemma Array_sort_Permutation l : Array_sort comparefn l ≡ₚ l.
Proof.
  induction l as [|x l IH]; simpl; [done|].
  by rewrite insert_sorted_Permutation, IH.
Qed.

Context (Htotal : ∀ x y, need_not_follow comparefn x y ∨ need_not_follow comparefn y x).
Context (Htrans : ∀ x y z,
            need_not_follow comparefn x y → need_not_follow comparefn y z → need_not_follow comparefn x z).

Lemma insert_sorted_Sorted x l :
  Sorted (need_not_follow comparefn) l → Sorted (need_not_follow comparefn) (insert_sorted comparefn x l).
Proof.
  induction 1 as [|y l Hl IH Hhd]; simpl; [by repeat constructor|].
  destruct (Z.leb_spec (comparefn x y) 0) as [Hle|Hgt].
  - constructor; [by constructor|]. by constructor.
  - constructor; [done|].
    assert (need_not_follow comparefn y x) as Hyx.
    { destruct (Htotal x y) as [H|H]; [|done]. unfold need_not_follow in H. lia. }
    destruct Hhd as [|z l' Hyz]; simpl; [by constructor|].
    destruct (comparefn x z <=? 0); by constructor.
Qed.

Lemma Array_sort_StronglySorted l :
  StronglySorted (need_not_follow comparefn) (Array_sort comparefn l).
Proof.
  apply Sorted.Sorted_StronglySorted; [exact Htrans|].
  induction l as [|x l IH]; simpl; [constructor|].
  by apply insert_sorted_Sorted.
Qed.
End ArraySortCorrect.

Lemma need_not_follow_newest_first a b :
  need_not_follow newest_first a b
  ↔ String.ltb (Transaction.createdAt a) (Transaction.createdAt b) = false.
Proof.
  unfold need_not_follow, newest_first.
  destruct (String.ltb _ _); split; (done || lia).
Qed.

Lemma newest_first_total a b :
  need_not_follow newest_first a b ∨ need_not_follow newest_first b a.
Proof.
  rewrite !need_not_follow_newest_first.
  destruct (String.ltb (Transaction.createdAt a) (Transaction.createdAt b)) eqn:H;
    [right; by apply ltb_asym | by left].
Qed.

Lemma newest_first_trans a b c :
  need_not_follow newest_first a b → need_not_follow newest_first b c →
  need_not_follow newest_first a c.
Proof. rewrite !need_not_follow_newest_first. apply not_ltb_trans. Qed.

Lemma StronglySorted_reverse {A} (R : relation A) l :
  StronglySorted R l → StronglySorted (flip R) (reverse l).
Proof.
  induction 1 as [|x l Hl IH Hx]; [constructor|].
  rewrite reverse_cons. apply StronglySorted_app. split_and!.
  - intros y z Hy ->%list_elem_of_singleton.
    rewrite Forall_forall in Hx. apply Hx. by apply elem_of_reverse.
  - done.
  - repeat constructor.
Qed.

Lemma StronglySorted_weaken {A} (R1 R2 : relation A) l :
  (∀ x y, R1 x y → R2 x y) → StronglySorted R1 l → StronglySorted R2 l.
Proof.
  intros HR. induction 1 as [|x l Hl IH Hx]; constructor; [done|].
  eapply Forall_impl; [exact Hx|]. auto.
Qed.

(** In a list strictly ordered by [createdAt], the timestamp determines the
    transaction. *)
Lemma older_sorted_createdAt_inj l a b :
  StronglySorted older l → a ∈ l → b ∈ l →
  Transaction.createdAt a = Transaction.createdAt b → a = b.
Proof.
  induction 1 as [|x l Hl IH Hx]; [by intros ?%elem_of_nil|].
  rewrite Forall_forall in Hx.
  intros [->|Ha]%elem_of_cons [->|Hb]%elem_of_cons Hab; [done|..].
  - specialize (Hx _ Hb). unfold older in Hx.
    by rewrite Hab, ltb_irrefl in Hx.
  - specialize (Hx _ Ha). unfold older in Hx.
    by rewrite <- Hab, ltb_irrefl in Hx.
  - by apply IH.
Qed.

(** Whatever algorithm the engine runs: a permutation of a log with
    pairwise distinct timestamps that the comparator orders is the list the
    model returns. *)
Lemma sorted_permutation_unique (asc l out : list Transaction.t) :
  asc ≡ₚ l → StronglySorted older asc →
  out ≡ₚ l → StronglySorted (need_not_follow newest_first) out →
  out = Array_sort newest_first l.
Proof.
  intros Hasc Hsorted Hout Hord.
  apply (StronglySorted_unique_strong (need_not_follow newest_first)); [|done|..].
  - intros x1 x2 H1 H2 H12%need_not_follow_newest_first
      H21%need_not_follow_newest_first.
    apply (older_sorted_createdAt_inj asc); [done|..].
    + by rewrite Hasc, <- Hout.
    + by rewrite Hasc, <- (Array_sort_Permutation newest_first l).
    + by apply ltb_trichotomy.
  - apply Array_sort_StronglySorted;
      [apply newest_first_total | apply newest_first_trans].
  - by rewrite Hout, Array_sort_Permutation.
Qed.

(** Pairwise distinct timestamps can always be listed in ascending order,
    and the model's result is then strictly descending. *)
Lemma StronglySorted_strict {A B} (R R' : relation A) (f : A → B) l :
  (∀ a b, R a b → f a ≠ f b → R' a b) →
  NoDup (f <$> l) → StronglySorted R l → StronglySorted R' l.
Proof.
  intros Hstrict Hnd Hsorted.
  induction Hsorted as [|x l Hl IH Hx]; [constructor|].
  rewrite fmap_cons in Hnd. apply NoDup_cons in Hnd as [Hnotin Hnd].
  constructor; [by apply IH|].
  rewrite Forall_forall in Hx. apply Forall_forall. intros y Hy.
  apply Hstrict; [by apply Hx|].
  intros Heq. apply Hnotin. rewrite Heq. by apply list_elem_of_fmap_2.
Qed.

Lemma Array_sort_strictly_newer (l : list Transaction.t) :
  NoDup (Transaction.createdAt <$> l) →
  StronglySorted newer (Array_sort newest_first l).
Proof.
  intros Hnd.
  apply (StronglySorted_strict (need_not_follow newest_first) newer
           Transaction.createdAt).
  - intros a b Hab%need_not_follow_newest_first Hne.
    unfold newer, older.
    destruct (String.ltb (Transaction.createdAt b) (Transaction.createdAt a)) eqn:Hba;
      [done|].
    destruct Hne. by apply ltb_trichotomy.
  - by rewrite (Array_sort_Permutation newest_first l).
  - apply Array_sort_StronglySorted;
      [apply newest_first_total | apply newest_first_trans].
Qed.

Lemma distinct_timestamps_ascending (l : list Transaction.t) :
  NoDup (Transaction.createdAt <$> l) →
  ∃ asc, asc ≡ₚ l ∧ StronglySorted older asc.
Proof.
  intros Hnd. exists (reverse (Array_sort newest_first l)). split.
  - by rewrite reverse_Permutation, Array_sort_Permutation.
  - apply (StronglySorted_reverse newer). by apply Array_sort_strictly_newer.
Qed.

(** C6. When the stored transactions of a user have pairwise distinct
    [createdAt] timestamps, so that they can be listed as [asc] with
    t1 < t2 < ... < tn, [getTransactionsForUser] returns exactly those
    transactions in the order tn, ..., t1: strictly descending by
    [createdAt]. Nothing is written. *)
Theorem getTransactionsForUser_newest_first userId s (asc : list Transaction.t) :
  asc ≡ₚ default [] (tx_items s !! (TX_KEY_PREFIX ++ userId)%string) →
  StronglySorted older asc →
  getTransactionsForUser userId s = (Returned (reverse asc), s)
  ∧ StronglySorted newer (reverse asc)
  ∧ reverse asc ≡ₚ default [] (tx_items s !! (TX_KEY_PREFIX ++ userId)%string).
Proof.
  intros Hperm Hsorted.
  assert (StronglySorted newer (reverse asc)) as Hrev
    by by apply (StronglySorted_reverse older).
  split_and!; [|done|by rewrite reverse_Permutation].
  unfold getTransactionsForUser, await, readJson_txs, resolve. simpl.
  do 2 f_equal. symmetry.
  apply (sorted_permutation_unique asc); [done..|by rewrite reverse_Permutation|].
  apply (StronglySorted_weaken newer); [|exact Hrev].
  intros a b Hab. apply need_not_follow_newest_first. by apply ltb_asym.
Qed.

Lemma getTransactionsForUser_newest_first_witness :
  getTransactionsForUser "u1" shuffled_log_storage
  = (Returned [tx_at "t3" "2024-01-01T00:00:03.000Z";
               tx_at "t2" "2024-01-01T00:00:02.000Z";
               tx_at "t1" "2024-01-01T00:00:01.000Z"], shuffled_log_storage).
Proof.
  apply (getTransactionsForUser_newest_first "u1" shuffled_log_storage
           [tx_at "t1" "2024-01-01T00:00:01.000Z";
            tx_at "t2" "2024-01-01T00:00:02.000Z";
            tx_at "t3" "2024-01-01T00:00:03.000Z"]).
  - vm_compute.
    eapply perm_trans; [apply perm_swap | apply perm_skip, perm_swap].
  - repeat constructor.
Defined.

(** ** Transaction creation *)

Lemma session_user_list_find s user :
  session_user s = Some user →
  current_user_item s = Some (User.id user)
  ∧ ∃ idx, list_find (λ u, User.id u = User.id user) (registry s)
           = Some (idx, user).
Proof.
  unfold session_user, find.
  destruct (truthy (current_user_item s)); [|done].
  intros [[idx u] [Hf ?]]%fmap_Some. simpl in *. subst u.
  pose proof Hf as (_ & Hid & _)%list_find_Some.
  split; [done|]. exists idx. rewrite <- Hf.
  apply list_find_ext. intros u. rewrite <- Hid. split; congruence.
Qed.

Lemma session_user_intro s id idx user :
  current_user_item s = Some id → truthy (Some id) = true →
  list_find (λ u, User.id u = id) (registry s) = Some (idx, user) →
  session_user s = Some user.
Proof.
  intros Hcur Htruthy Hfind. unfold session_user, find.
  rewrite Hcur, Htruthy.
  rewrite (list_find_ext _ (λ u, User.id u = id)), Hfind; [done|].
  intros u. split; congruence.
Qed.

Lemma session_user_truthy s user :
  session_user s = Some user → truthy (current_user_item s) = true.
Proof. unfold session_user. by destruct (truthy _). Qed.

Lemma list_find_id_JSON_users id (l : list User.t) :
  list_find (λ u, User.id u = id) (JSON_user <$> l)
  = prod_map (λ i, i) JSON_user <$> list_find (λ u, User.id u = id) l.
Proof. rewrite list_find_fmap. f_equal. Qed.

(** What a call with a session does: the transaction it returns and the
    stores it leaves. *)
Lemma createTransaction_with_session params uuid now s user :
  session_user s = Some user →
  ∃ idx,
    list_find (λ u, User.id u = User.id user) (registry s) = Some (idx, user)
    ∧ let tx :=
        Transaction.make uuid (User.id user) (Params.type params)
          (Params.counterparty params) (Some (Params.amount params))
          (Some (fee_of params)) (Some (total_of params)) (Params.note params)
          completed now in
      let key := (TX_KEY_PREFIX ++ User.id user)%string in
      createTransactionForCurrentUser params uuid now s
      = (Returned tx,
         {| users_item :=
              Some (JSON_user <$>
                      <[idx := User.with_balance user
                                 (Some (to_number
                                          (toFixed
                                             (unrounded_balance params
                                                (User.balance user)) 2)))]>
                        (registry s));
            current_user_item := current_user_item s;
            tx_items :=
              <[key := JSON_transaction <$> (tx :: default [] (tx_items s !! key))]>
                (tx_items s);
            secure_items := secure_items s |}).
Proof.
  intros Huser.
  destruct (session_user_list_find _ _ Huser) as (Hcur & idx & Hfind).
  exists idx. split; [done|].
  unfold createTransactionForCurrentUser, await.
  rewrite getCurrentUser_session_user, Huser.
  cbn -[toFixed to_number default_fee]. fold (registry s). rewrite Hfind.
  destruct params as [[] counterparty amount [fee|] note]; reflexivity.
Qed.

Lemma createTransaction_cases params uuid now s :
  match session_user s with
  | None =>
      createTransactionForCurrentUser params uuid now s
      = (Thrown "No logged-in user.", s)
  | Some user =>
      ∃ tx s', createTransactionForCurrentUser params uuid now s = (Returned tx, s')
  end.
Proof.
  destruct (session_user s) as [user|] eqn:Huser.
  - destruct (createTransaction_with_session params uuid now s user Huser)
      as (idx & _ & Hrun). simpl in Hrun. eauto.
  - unfold createTransactionForCurrentUser, await.
    by rewrite getCurrentUser_session_user, Huser.
Qed.

(** After the call the session's user is the same user with the new
    balance, as JSON keeps it. *)
Lemma createTransaction_session_user params uuid now s user :
  session_user s = Some user →
  session_user (snd (createTransactionForCurrentUser params uuid now s))
  = Some (User.with_balance user (persisted_balance params (User.balance user))).
Proof.
  intros Huser.
  destruct (createTransaction_with_session params uuid now s user Huser)
    as (idx & Hfind & Hrun).
  simpl in Hrun. rewrite Hrun. simpl.
  destruct (session_user_list_find _ _ Huser) as (Hcur & _).
  eapply (session_user_intro _ (User.id user) idx).
  - done.
  - rewrite <- Hcur. by eapply session_user_truthy.
  - unfold registry at 1. simpl. rewrite list_find_id_JSON_users.
    pose proof Hfind as (Hidx & _ & Hleast)%list_find_Some.
    set (updated := User.with_balance user _).
    rewrite (proj2 (list_find_insert_Some (λ u, User.id u = User.id user)
                      (registry s) idx idx updated updated)); [done|].
    right. left. split_and!; [done|done| |done|done].
    by eapply lookup_lt_Some.
Qed.

Lemma createTransaction_returned params uuid now s tx s' :
  createTransactionForCurrentUser params uuid now s = (Returned tx, s') →
  ∃ user, session_user s = Some user.
Proof.
  unfold createTransactionForCurrentUser, await.
  rewrite getCurrentUser_session_user.
  destruct (session_user s) as [user|]; [eauto | discriminate].
Qed.

(** What a successful call returns and leaves, in one statement. *)
Lemma createTransaction_effect params uuid now s tx s' :
  createTransactionForCurrentUser params uuid now s = (Returned tx, s') →
  ∃ user,
    getCurrentUser s = (Returned (Some user), s)
    ∧ Transaction.type tx = Params.type params
    ∧ Transaction.amount tx = Some (Params.amount params)
    ∧ Transaction.fee tx = Some (fee_of params)
    ∧ Transaction.total tx = Some (total_of params)
    ∧ getCurrentUser s'
      = (Returned
           (Some (User.with_balance user
                    (persisted_balance params (User.balance user)))), s').
Proof.
  intros Hrun.
  destruct (createTransaction_returned _ _ _ _ _ _ Hrun) as [user Huser].
  exists user. rewrite !getCurrentUser_session_user, Huser.
  pose proof (createTransaction_session_user params uuid now s user Huser) as Hs'.
  destruct (createTransaction_with_session params uuid now s user Huser)
    as (idx & _ & Heq).
  simpl in Heq. rewrite Hrun in Hs'. rewrite Hrun in Heq.
  injection Heq as -> _. simpl in Hs'. by rewrite Hs'.
Qed.

(** ** Totals and the balance update *)

(** C2, as stated, fails: a send of 0.125 with fee 0 from balance 0 has
    total 0.125, and the persisted balance is -0.13, not 0 - 0.125. *)
Lemma send_balance_not_plain_difference :
  let params := Params.make send (Some "Bob") 0.125 (Some 0%float) None in
  let run :=
    createTransactionForCurrentUser params "t1" "2024-01-01T00:00:01.000Z"
      ada_storage in
  getCurrentUser ada_storage = (Returned (Some ada), ada_storage)
  ∧ (Transaction.total <$> (match fst run with
                            | Returned tx => Some tx
                            | Thrown _ => None
                            end)) = Some (Some 0.125%float)
  ∧ getCurrentUser (snd run)
    = (Returned (Some (User.with_balance ada (Some (-0.13)%float))), snd run)
  ∧ (0 - 0.125 =? -0.13)%float = false.
Proof. split_and!; vm_compute; reflexivity. Qed.

(** C2, amended. A successful call with a current user of balance
    [oldBalance] (a [null] balance counts as 0): for [send], the returned
    transaction has [total = amount + fee] and the new persisted balance is
    [oldBalance - total] rounded by [toFixed(2)]; for [receive], [topup] and
    [refund], [total = amount - fee] and the new persisted balance is
    [oldBalance + amount - fee] rounded by [toFixed(2)]. The value persisted
    is the one JSON keeps. *)
Theorem createTransaction_total_and_balance params uuid now s tx s' :
  createTransactionForCurrentUser params uuid now s = (Returned tx, s') →
  ∃ user fee,
    getCurrentUser s = (Returned (Some user), s)
    ∧ Transaction.fee tx = Some fee
    ∧ let amount := Params.amount params in
      let oldBalance := ToNumber (User.balance user) in
      match Params.type params with
      | send =>
          Transaction.total tx = Some (amount + fee)%float
          ∧ getCurrentUser s'
            = (Returned
                 (Some (User.with_balance user
                          (JSON_number
                             (to_number
                                (toFixed (oldBalance - (amount + fee)) 2))))),
               s')
      | receive | topup | refund =>
          Transaction.total tx = Some (amount - fee)%float
          ∧ getCurrentUser s'
            = (Returned
                 (Some (User.with_balance user
                          (JSON_number
                             (to_number
                                (toFixed (oldBalance + amount - fee) 2))))),
               s')
      end.
Proof.
  intros Hrun.
  destruct (createTransaction_effect _ _ _ _ _ _ Hrun)
    as (user & Hcur & _ & _ & Hfee & Htotal & Hnew).
  exists user, (fee_of params). split_and!; [done..|].
  rewrite Htotal, Hnew.
  unfold persisted_balance, unrounded_balance, total_of.
  by destruct (Params.type params).
Qed.

(** The scenario of the specification: signup, then a send of 50 with fee 5
    to Bob, gives total 55 and balance -55. *)
Lemma createTransaction_total_and_balance_witness :
  let params := Params.make send (Some "Bob") 50 (Some 5%float) None in
  let now := "2024-01-01T00:00:01.000Z"%string in
  let tx := Transaction.make "t1" "u1" send (Some "Bob") (Some 50%float)
              (Some 5%float) (Some 55%float) None completed now in
  let s' := snd (createTransactionForCurrentUser params "t1" now ada_storage) in
  createTransactionForCurrentUser params "t1" now ada_storage = (Returned tx, s')
  ∧ getCurrentUser s'
    = (Returned (Some (User.with_balance ada (Some (-55)%float))), s').
Proof.
  assert (createTransactionForCurrentUser
            (Params.make send (Some "Bob") 50 (Some 5%float) None) "t1"
            "2024-01-01T00:00:01.000Z" ada_storage
          = (Returned
               (Transaction.make "t1" "u1" send (Some "Bob") (Some 50%float)
                  (Some 5%float) (Some 55%float) None completed
                  "2024-01-01T00:00:01.000Z"),
             snd (createTransactionForCurrentUser
                    (Params.make send (Some "Bob") 50 (Some 5%float) None) "t1"
                    "2024-01-01T00:00:01.000Z" ada_storage))) as Hrun
    by (vm_compute; reflexivity).
  split; [exact Hrun|].
  destruct (createTransaction_total_and_balance _ _ _ _ _ _ Hrun)
    as (user & fee & Hcur & Hfee & Htotal & Hnew).
  rewrite getCurrentUser_session_user in Hcur.
  injection Hcur as Hcur. vm_compute in Hcur. subst user.
  injection Hfee as <-.
  rewrite Hnew. vm_compute. reflexivity.
Defined.

(** ** The default fee *)





(** At a half cent the code rounds either way: 1.5% of 667.00 is 10.005
    and the fee is 10.00; 1.5% of 671.00 is 10.065 and the fee is 10.07. *)
Example default_fee_at_half_cents :
  default_fee (cents 66700) = cents 1000
  ∧ default_fee (cents 67100) = cents 1007.
Proof. split; vm_compute; reflexivity. Qed.




(** ** The persisted balance has at most two decimal places *)

Lemma Prim2SF_finite_inv x sign m e :
  Prim2SF x = S754_finite sign m e →
  is_nan x = false ∧ is_zero x = false ∧ is_infinity x = false.
Proof.
  unfold Prim2SF.
  destruct (is_nan x); [discriminate|].
  destruct (is_zero x); [discriminate|].
  by destruct (is_infinity x).
Qed.

Lemma Prim2SF_infinity_inv x sign :
  Prim2SF x = S754_infinity sign → is_nan x = false ∧ is_infinity x = true.
Proof.
  unfold Prim2SF.
  destruct (is_nan x); [discriminate|].
  destruct (is_zero x); [discriminate|].
  destruct (is_infinity x); [done|].
  destruct (Z.frexp x) as [r exp].
  destruct (shr_fexp _ _ _ _ _) as [shr e'].
  by destruct (shr_m shr).
Qed.

(** A finite Number of magnitude at least 1e21 has no fractional part. *)
Lemma large_is_integral x sign m e :
  Prim2SF x = S754_finite sign m e → (1e21 <=? abs x)%float = true → integral x.
Proof.
  intros Hx Hle. exists sign, m, e. split; [done|].
  rewrite leb_spec, abs_spec, Hx in Hle.
  change (Prim2SF 1e21) with (S754_finite false 7629394531250000 17) in Hle.
  unfold SFleb, SFabs, SFcompare in Hle.
  destruct (Z.compare_spec 17 e); [lia | lia | discriminate].
Qed.

Lemma toFixed_2_at_most_two_decimals x :
  at_most_two_decimals (JSON_number (to_number (toFixed x 2))).
Proof.
  unfold toFixed. destruct (Prim2SF x) as [sign|sign| |sign m e] eqn:Hx.
  - right. left. by exists false, 0.
  - left. apply Prim2SF_infinity_inv in Hx as [Hnan Hinf].
    simpl. unfold JSON_number. by rewrite Hnan, Hinf.
  - by left.
  - destruct (1e21 <=? abs x)%float eqn:Hle.
    + right. right. exists x. split; [|by eapply large_is_integral].
      apply Prim2SF_finite_inv in Hx as (Hnan & Hzero & Hinf).
      simpl. unfold JSON_number. by rewrite Hnan, Hzero, Hinf.
    + right. left. by eexists _, _.
Qed.

(** *** Rounding an integer quotient to binary64 does not overflow *)

Lemma digits2_pos_size p : digits2_pos p = Pos.size p.
Proof. induction p; simpl; congruence. Qed.

Lemma Zdigits2_gt m : 0 ≤ m → m < 2 ^ Zdigits2 m.
Proof.
  destruct m as [|p|p]; [done| |lia]. intros _. simpl.
  rewrite digits2_pos_size. pose proof (Pos.size_gt p) as H.
  rewrite <- Pos2Z.inj_pow. lia.
Qed.

Lemma Zdigits2_le m d : 0 ≤ d → 0 ≤ m < 2 ^ d → Zdigits2 m ≤ d.
Proof.
  intros Hd [Hm Hlt]. destruct m as [|p|p]; [done| |lia]. simpl.
  rewrite digits2_pos_size.
  destruct (Z.le_gt_cases (Z.pos (Pos.size p)) d) as [|Hgt]; [done|].
  pose proof (Pos.size_le p) as Hle.
  assert (2 ^ (d + 1) ≤ 2 ^ Z.pos (Pos.size p)) by (apply Z.pow_le_mono_r; lia).
  rewrite Z.pow_add_r in * by lia.
  assert (Z.pos (2 ^ Pos.size p) ≤ Z.pos p~0) by lia.
  rewrite Pos2Z.inj_pow in *. lia.
Qed.

Lemma shr_1_m r : 0 ≤ shr_m r → shr_m (shr_1 r) = shr_m r / 2.
Proof.
  destruct r as [m r s]. cbn [shr_1 shr_m]. intros Hm.
  destruct m as [|[p|p|]|p]; cbn [shr_m]; try lia; try done.
  - apply (Z.div_unique _ _ _ 1); lia.
  - apply (Z.div_unique _ _ _ 0); lia.
Qed.

Lemma iter_pos_shr_1_m p r :
  0 ≤ shr_m r → shr_m (SpecFloat.iter_pos shr_1 p r) = shr_m r / 2 ^ Z.pos p.
Proof.
  revert r. induction p as [p IH|p IH|]; intros r Hr; simpl.
  - assert (0 ≤ shr_m (shr_1 r)) as H1 by (rewrite shr_1_m by done; apply Z.div_pos; lia).
    assert (0 ≤ shr_m (SpecFloat.iter_pos shr_1 p (shr_1 r))) as H2
      by (rewrite IH by done; apply Z.div_pos; lia).
    rewrite IH, IH, shr_1_m by done.
    rewrite !Z.div_div by lia. f_equal.
    rewrite Pos2Z.inj_xI, Z.pow_add_r, Z.pow_mul_r by lia.
    change (2 ^ 2) with 4. replace (2 ^ 1) with 2 by done.
    rewrite <- Z.pow_twice_r. rewrite Z.pow_mul_r by lia. change (2 ^ 2) with 4. lia.
  - assert (0 ≤ shr_m (SpecFloat.iter_pos shr_1 p r)) as H2
      by (rewrite IH by done; apply Z.div_pos; lia).
    rewrite IH, IH by done. rewrite Z.div_div by lia. f_equal.
    rewrite Pos2Z.inj_xO, <- Z.pow_twice_r. done.
  - rewrite shr_1_m by done. done.
Qed.

Lemma fexp_binary64 x : fexp prec emax x = Z.max (x - 53) (-1074).
Proof. reflexivity. Qed.

Lemma shr_record_of_loc_m m l : shr_m (shr_record_of_loc m l) = m.
Proof. by destruct l as [|[]]. Qed.

Lemma round_nearest_even_bounds m l :
  m ≤ round_nearest_even m l ≤ m + 1.
Proof. destruct l as [|[]]; simpl; try lia. destruct (Z.even m); lia. Qed.

Lemma shr_fexp_bounds m e l mrs e' :
  0 ≤ m →
  shr_fexp prec emax m e l = (mrs, e') →
  0 ≤ shr_m mrs < 2 ^ 53 ∧ e' = Z.max e (fexp prec emax (Zdigits2 m + e)).
Proof.
  intros Hm. unfold shr_fexp, shr.
  pose proof (Zdigits2_gt m Hm) as Hdigits.
  assert (0 ≤ Zdigits2 m) as Hd by (destruct m; simpl; lia).
  rewrite fexp_binary64.
  destruct (Z.max (Zdigits2 m + e - 53) (-1074) - e) as [|p|p] eqn:Hn.
  - intros [= <- <-]. rewrite shr_record_of_loc_m. split; [|lia].
    split; [done|]. eapply Z.lt_le_trans; [exact Hdigits|].
    apply Z.pow_le_mono_r; lia.
  - intros [= <- <-]. rewrite iter_pos_shr_1_m, shr_record_of_loc_m
      by (by rewrite shr_record_of_loc_m).
    split; [|lia]. split; [apply Z.div_pos; lia|].
    apply Z.div_lt_upper_bound; [lia|]. rewrite <- Z.pow_add_r by lia.
    eapply Z.lt_le_trans; [exact Hdigits|]. apply Z.pow_le_mono_r; lia.
  - intros [= <- <-]. rewrite shr_record_of_loc_m. split; [|lia].
    split; [done|]. eapply Z.lt_le_trans; [exact Hdigits|].
    apply Z.pow_le_mono_r; lia.
Qed.

(** Rounding [m * 2^e], for [0 <= m < 2^d], gives zero or a finite value
    with an exponent of at most [max e (d + e - 53) (-1074) + 1]: no
    infinity as long as that is at most 971. *)
Lemma binary_round_aux_finite sx m e l d :
  0 ≤ d → 0 ≤ m < 2 ^ d →
  Z.max (Z.max e (d + e - 53)) (-1074) + 1 ≤ 971 →
  binary_round_aux prec emax sx m e l = S754_zero sx
  ∨ ∃ m' e', binary_round_aux prec emax sx m e l = S754_finite sx m' e'
             ∧ e' ≤ Z.max (Z.max e (d + e - 53)) (-1074) + 1.
Proof.
  intros Hd Hm Hbound. unfold binary_round_aux.
  destruct (shr_fexp prec emax m e l) as [mrs1 e1] eqn:H1.
  apply shr_fexp_bounds in H1 as [Hm1 He1]; [|lia].
  rewrite fexp_binary64 in He1.
  pose proof (Zdigits2_le m d Hd Hm) as Hdm.
  pose proof (round_nearest_even_bounds (shr_m mrs1) (loc_of_shr_record mrs1))
    as Hrne.
  set (m2 := round_nearest_even (shr_m mrs1) (loc_of_shr_record mrs1)) in *.
  destruct (shr_fexp prec emax m2 e1 loc_Exact) as [mrs2 e2] eqn:H2.
  apply shr_fexp_bounds in H2 as [Hm2 He2]; [|lia].
  rewrite fexp_binary64 in He2.
  assert (Zdigits2 m2 ≤ 54) as Hd2.
  { apply Zdigits2_le; [lia|]. change (2 ^ 54) with (2 * 2 ^ 53). lia. }
  destruct (shr_m mrs2) as [|p|p] eqn:Hp; [by left| |lia].
  right. exists p, e2.
  assert (e2 ≤ Z.max (Z.max e (d + e - 53)) (-1074) + 1) as He by lia.
  split; [|done].
  change (emax - prec) with 971.
  by rewrite (proj2 (Z.leb_le e2 971)) by lia.
Qed.

Lemma Pos_iter_xO m d : Z.pos (Pos.iter xO m d) = Z.pos m * 2 ^ Z.pos d.
Proof.
  induction d as [|d IH] using Pos.peano_ind.
  - simpl. lia.
  - rewrite Pos.iter_succ, Pos2Z.inj_xO, IH, Pos2Z.inj_succ, Z.pow_succ_r by lia.
    lia.
Qed.

Lemma binary_round_finite sx m e d :
  0 ≤ d → Z.pos m < 2 ^ d →
  Z.max (Z.max e (d + e - 53)) (-1074) + 1 ≤ 971 →
  binary_round prec emax sx m e = S754_zero sx
  ∨ ∃ m' e', binary_round prec emax sx m e = S754_finite sx m' e'
             ∧ e' ≤ Z.max (Z.max e (d + e - 53)) (-1074) + 1.
Proof.
  intros Hd Hm Hbound. unfold binary_round, shl_align.
  rewrite fexp_binary64.
  destruct (Z.max (Z.pos (digits2_pos m) + e - 53) (-1074) - e) as [|p|p] eqn:Hn.
  - by apply binary_round_aux_finite.
  - by apply binary_round_aux_finite.
  - set (e0 := Z.max (Z.pos (digits2_pos m) + e - 53) (-1074)) in *.
    destruct (binary_round_aux_finite sx (Z.pos (Pos.iter xO m p)) e0 loc_Exact
                (d + Z.pos p)) as [Hz|(m' & e' & Hf & He)].
    + lia.
    + rewrite Pos_iter_xO, Z.pow_add_r by lia. split; [lia|].
      apply Z.mul_lt_mono_pos_r; lia.
    + lia.
    + by left.
    + right. exists m', e'. split; [done|]. lia.
Qed.

(** A Number whose [Prim2SF] is a zero or finite is neither NaN nor an
    infinity. *)
Lemma Prim2SF_zero_inv x s :
  Prim2SF x = S754_zero s → is_nan x = false ∧ is_infinity x = false.
Proof.
  intros Hx. split.
  - unfold is_nan. rewrite FloatAxioms.eqb_spec, Hx. done.
  - unfold is_infinity. rewrite FloatAxioms.eqb_spec, abs_spec, Hx. done.
Qed.

Lemma zero_or_finite_JSON x :
  zero_or_finite (Prim2SF x) → ∃ b, JSON_number x = Some b.
Proof.
  unfold JSON_number.
  destruct (Prim2SF x) as [s|s| |s m e] eqn:Hx; try done; intros _.
  - apply Prim2SF_zero_inv in Hx as [-> ->]. simpl. destruct (is_zero x); eauto.
  - apply Prim2SF_finite_inv in Hx as (-> & -> & ->). simpl. eauto.
Qed.

Lemma valid_binary_mantissa s m e :
  valid_binary prec emax (S754_finite s m e) = true → Z.pos m < 2 ^ 53.
Proof.
  unfold valid_binary, bounded, canonical_mantissa.
  rewrite fexp_binary64. intros [Hc _]%andb_true_iff. apply Z.eqb_eq in Hc.
  pose proof (Zdigits2_gt (Z.pos m) ltac:(lia)) as Hd. simpl in Hd.
  eapply Z.lt_le_trans; [exact Hd|]. apply Z.pow_le_mono_r; lia.
Qed.

(** [SF2Prim] of a zero, or of [m * 2^e] with [e <= 900], is zero or
    finite. *)
Lemma SF2Prim_zero_or_finite r :
  match r with
  | S754_zero _ => True
  | S754_finite _ _ e => e ≤ 900
  | _ => False
  end →
  zero_or_finite (Prim2SF (SF2Prim r)).
Proof.
  destruct r as [[]|[]| |s m e]; try done.
  intros He. unfold SF2Prim.
  set (pm := of_uint63 (Uint63.of_Z (Z.pos m))).
  assert (zero_or_finite (Prim2SF (Z.ldexp pm e))) as Hl.
  { rewrite Z_ldexp_spec.
    pose proof (Prim2SF_valid pm) as Hvalid.
    assert (match Prim2SF pm with
            | S754_zero _ => True
            | S754_finite _ _ e0 => e0 ≤ 11
            | _ => False
            end) as Hpm.
    { unfold pm. rewrite of_uint63_spec.
      pose proof (Uint63.to_Z_bounded (Uint63.of_Z (Z.pos m))) as Hz.
      change Uint63.wB with (2 ^ 63) in Hz.
      destruct (Uint63.to_Z _) as [|p|p]; [done| |lia]. simpl.
      destruct (binary_round_finite false p 0 63) as [->|(m' & e' & -> & He')];
        [lia..|done|lia]. }
    destruct (Prim2SF pm) as [s0|s0| |s0 m0 e0]; try done.
    apply valid_binary_mantissa in Hvalid. simpl.
    destruct (binary_round_finite s0 m0 (e0 + e) 53) as [->|(m' & e' & -> & He')];
      [lia..|done|done]. }
  destruct s; [|done]. rewrite opp_spec.
  by destruct (Prim2SF (Z.ldexp pm e)).
Qed.

(** The quotient of two integers, the first below [2^900], rounds to zero
    or to a finite value. *)
Lemma SFdiv_integers_finite pn pd d :
  0 ≤ d ≤ 900 → Z.pos pn < 2 ^ d →
  match SFdiv prec emax (S754_finite false pn 0) (S754_finite false pd 0) with
  | S754_zero _ => True
  | S754_finite _ _ e => e ≤ 900
  | _ => False
  end.
Proof.
  intros Hd Hpn. unfold SFdiv, SFdiv_core_binary.
  rewrite fexp_binary64.
  set (e' := Z.min _ _).
  assert (e' ≤ 0) as He' by (unfold e'; lia).
  assert (-1074 ≤ e') as He'' by (unfold e'; lia).
  set (m' := match 0 - 0 - e' with
             | Z.pos _ => Z.shiftl (Z.pos pn) (0 - 0 - e')
             | 0 => Z.pos pn
             | Z.neg _ => 0
             end).
  assert (0 ≤ m' < 2 ^ (d - e')) as Hm'.
  { unfold m'. destruct (0 - 0 - e') as [|p|p] eqn:Hs; [|  |lia].
    - replace e' with 0 by lia. rewrite Z.sub_0_r. lia.
    - rewrite Z.shiftl_mul_pow2 by lia. rewrite <- Hs.
      replace (d - e') with (d + (0 - 0 - e')) by lia.
      rewrite Z.pow_add_r by lia. split; [lia|].
      apply Z.mul_lt_mono_pos_r; lia. }
  pose proof (Z_div_mod m' (Z.pos pd) ltac:(lia)) as Hdiv.
  destruct (Z.div_eucl m' (Z.pos pd)) as [q r]. destruct Hdiv as [Hq Hr].
  assert (0 ≤ q < 2 ^ (d - e')) as Hqb by nia.
  destruct (binary_round_aux_finite (xorb false false) q e'
              (new_location (Z.pos pd) r) (d - e'))
    as [->|(m0 & e0 & -> & He0)]; [lia..|done|lia].
Qed.

Lemma floor_plus_half_bounds m e :
  0 ≤ m < 2 ^ 60 → e ≤ 17 → 0 ≤ floor_plus_half m e < 2 ^ 77.
Proof.
  intros Hm He. unfold floor_plus_half.
  destruct (Z.leb_spec 0 e) as [Hpos|Hneg].
  - assert (0 < 2 ^ e ≤ 2 ^ 17) as Hp
      by (split; [lia|apply Z.pow_le_mono_r; lia]).
    change (2 ^ 77) with (2 ^ 60 * 2 ^ 17). nia.
  - assert (1 ≤ 2 ^ (- e)) as Hp by lia.
    replace (1 - e) with (1 + - e) by lia. rewrite Z.pow_add_r by lia.
    change (2 ^ 1) with 2. split.
    + apply Z.div_pos; lia.
    + apply Z.div_lt_upper_bound; [lia|].
      pose proof (eq_refl : 2 ^ 60 = 1152921504606846976) as E60.
      pose proof (eq_refl : 2 ^ 77 = 151115727451828646838272) as E77.
      lia.
Qed.

Lemma of_ratio_zero_or_finite n d :
  0 ≤ n < 2 ^ 77 → zero_or_finite (Prim2SF (of_ratio n d)).
Proof.
  intros Hn. unfold of_ratio.
  destruct n as [|pn|pn]; [done| |lia]. destruct d as [|pd|pd]; [done| |done].
  apply SF2Prim_zero_or_finite.
  pose proof (SFdiv_integers_finite pn pd 77 ltac:(lia) ltac:(lia)) as H.
  by destruct (SFdiv _ _ _ _).
Qed.

(** [+(x.toFixed(2))] survives JSON exactly when [x] is finite: it becomes
    [null] for NaN and the infinities, and for nothing else. *)
Lemma toFixed_2_finite x :
  is_nan x || is_infinity x = false →
  ∃ b, JSON_number (to_number (toFixed x 2)) = Some b.
Proof.
  intros Hfinite. unfold toFixed.
  pose proof (Prim2SF_valid x) as Hvalid.
  destruct (Prim2SF x) as [s|s| |s m e] eqn:Hx.
  - by exists 0%float.
  - apply Prim2SF_infinity_inv in Hx as [Hnan Hinf].
    by rewrite Hnan, Hinf in Hfinite.
  - exfalso. revert Hx. unfold Prim2SF.
    apply orb_false_iff in Hfinite as [-> Hinf]. rewrite Hinf.
    destruct (is_zero x); [done|].
    destruct (Z.frexp x) as [r exp].
    destruct (shr_fexp _ _ _ _ _) as [shr e'].
    by destruct (shr_m shr).
  - destruct (1e21 <=? abs x)%float eqn:Hle.
    + apply zero_or_finite_JSON. simpl. by rewrite Hx.
    + apply zero_or_finite_JSON. unfold to_number.
      assert (e ≤ 17) as He.
      { rewrite leb_spec, abs_spec, Hx in Hle.
        change (Prim2SF 1e21) with (S754_finite false 7629394531250000 17) in Hle.
        unfold SFleb, SFabs, SFcompare in Hle.
        destruct (Z.compare_spec 17 e); [lia|discriminate|lia]. }
      apply valid_binary_mantissa in Hvalid.
      assert (zero_or_finite
                (Prim2SF (of_ratio (floor_plus_half (Z.pos m * 10 ^ 2) e)
                            (10 ^ 2)))) as Hv.
      { apply of_ratio_zero_or_finite, floor_plus_half_bounds; [|done].
        change (10 ^ 2) with 100.
        pose proof (eq_refl : 2 ^ 53 = 9007199254740992) as E53.
        pose proof (eq_refl : 2 ^ 60 = 1152921504606846976) as E60.
        lia. }
      destruct s; [|done]. rewrite opp_spec.
      by destruct (Prim2SF (of_ratio _ _)).
Qed.

Lemma toFixed_2_not_finite x :
  is_nan x || is_infinity x = true →
  JSON_number (to_number (toFixed x 2)) = None.
Proof.
  intros Hnot. unfold toFixed.
  destruct (Prim2SF x) as [s|s| |s m e] eqn:Hx.
  - apply Prim2SF_zero_inv in Hx as [Hnan Hinf].
    by rewrite Hnan, Hinf in Hnot.
  - simpl. unfold JSON_number. by rewrite Hnot.
  - done.
  - apply Prim2SF_finite_inv in Hx as (Hnan & _ & Hinf).
    by rewrite Hnan, Hinf in Hnot.
Qed.

Lemma toFixed_2_two_decimals x b :
  JSON_number (to_number (toFixed x 2)) = Some b → two_decimals b.
Proof.
  intros Hb. pose proof (toFixed_2_at_most_two_decimals x) as H.
  rewrite Hb in H. destruct H as [H|[(negative & n & H)|(y & [= ->] & H)]].
  - done.
  - left. by exists negative, n.
  - by right.
Qed.

(** C10, as stated, fails: the second of two top-ups of 1e308 succeeds, the
    new balance [1e308 + 1e308] is [Infinity], and what is written for the
    user is [null], not a Number with two decimal places. *)
Lemma createTransaction_balance_null_on_overflow :
  let huge := Params.make topup None 1e308 (Some 0%float) None in
  let s1 :=
    snd (createTransactionForCurrentUser huge "t1" "2024-01-01T00:00:01.000Z"
           ada_storage) in
  let run :=
    createTransactionForCurrentUser huge "t2" "2024-01-01T00:00:02.000Z" s1 in
  getCurrentUser s1
  = (Returned (Some (User.with_balance ada (Some 1e308%float))), s1)
  ∧ fst run
    = Returned (Transaction.make "t2" "u1" topup None (Some 1e308%float)
                  (Some 0%float) (Some 1e308%float) None completed
                  "2024-01-01T00:00:02.000Z")
  ∧ is_infinity (1e308 + 1e308 - 0) = true
  ∧ getCurrentUser (snd run)
    = (Returned (Some (User.with_balance ada None)), snd run).
Proof. vm_compute. by split_and!. Qed.

(** C10, amended. After every successful [createTransactionForCurrentUser]
    call, for each of the four transaction types, the balance written for
    the user is [+(unrounded).toFixed(2)] as JSON keeps it, where
    [unrounded] is [oldBalance - total] for send and
    [oldBalance + amount - fee] otherwise. When [unrounded] is NaN or an
    infinity, what is written is [null]. In every other case, whatever the
    decimals of the amount and the fee, it is a Number with at most two
    decimal places: a decimal with two fractional digits, or, from 1e21
    on, a Number without fractional part. *)
Theorem createTransaction_balance_rounded params uuid now s tx s' :
  createTransactionForCurrentUser params uuid now s = (Returned tx, s') →
  ∃ user fee total unrounded,
    getCurrentUser s = (Returned (Some user), s)
    ∧ Transaction.fee tx = Some fee ∧ Transaction.total tx = Some total
    ∧ unrounded
      = match Params.type params with
        | send => (ToNumber (User.balance user) - total)%float
        | receive | topup | refund =>
            (ToNumber (User.balance user) + Params.amount params - fee)%float
        end
    ∧ getCurrentUser s'
      = (Returned
           (Some (User.with_balance user
                    (JSON_number (to_number (toFixed unrounded 2))))), s')
    ∧ (is_nan unrounded || is_infinity unrounded = true →
       JSON_number (to_number (toFixed unrounded 2)) = None)
    ∧ (is_nan unrounded || is_infinity unrounded = false →
       ∃ b, JSON_number (to_number (toFixed unrounded 2)) = Some b
            ∧ two_decimals b).
Proof.
  intros Hrun.
  destruct (createTransaction_effect _ _ _ _ _ _ Hrun)
    as (user & Hcur & _ & _ & Hfee & Htotal & Hnew).
  exists user, (fee_of params), (total_of params),
    (unrounded_balance params (User.balance user)).
  split_and!; [done..| |done| |].
  - unfold unrounded_balance, total_of. by destruct (Params.type params).
  - apply toFixed_2_not_finite.
  - intros Hfinite. destruct (toFixed_2_finite _ Hfinite) as [b Hb].
    exists b. split; [done|]. by eapply toFixed_2_two_decimals.
Qed.

(** A top-up of 0.125 with fee 0 from balance 0: the balance written is
    0.13. *)
Lemma createTransaction_balance_rounded_witness :
  let params := Params.make topup None 0.125 (Some 0%float) None in
  let run :=
    createTransactionForCurrentUser params "t1" "2024-01-01T00:00:01.000Z"
      ada_storage in
  getCurrentUser (snd run)
  = (Returned (Some (User.with_balance ada (Some 0.13%float))), snd run)
  ∧ two_decimals 0.13%float.
Proof.
  assert (createTransactionForCurrentUser
            (Params.make topup None 0.125 (Some 0%float) None) "t1"
            "2024-01-01T00:00:01.000Z" ada_storage
          = (Returned
               (Transaction.make "t1" "u1" topup None (Some 0.125%float)
                  (Some 0%float) (Some 0.125%float) None completed
                  "2024-01-01T00:00:01.000Z"),
             snd (createTransactionForCurrentUser
                    (Params.make topup None 0.125 (Some 0%float) None) "t1"
                    "2024-01-01T00:00:01.000Z" ada_storage))) as Hrun
    by (vm_compute; reflexivity).
  destruct (createTransaction_balance_rounded _ _ _ _ _ _ Hrun)
    as (user & fee & total & unrounded & Hcur & Hfee & Htotal & Hraw & Hnew
        & _ & Hfinite).
  rewrite getCurrentUser_session_user in Hcur.
  injection Hcur as Hcur. vm_compute in Hcur. subst user.
  injection Hfee as <-. injection Htotal as <-.
  destruct Hfinite as (b & Hb & H2dp); [subst unrounded; vm_compute; reflexivity|].
  assert (JSON_number (to_number (toFixed unrounded 2)) = Some 0.13%float) as Heq
    by (subst unrounded; vm_compute; reflexivity).
  rewrite Heq in Hnew, Hb. injection Hb as <-. by split.
Defined.

(** ** The balance as a fold over the created transactions *)

(** C1, as stated, fails: after signup and one top-up of 0.125 with fee 0,
    the persisted balance is 0.13 while the sum of the net effects is
    0.125. *)
Lemma balance_not_sum_of_net_effects :
  let params := Params.make topup None 0.125 (Some 0%float) None in
  let tx := Transaction.make "t1" "u1" topup None (Some 0.125%float)
              (Some 0%float) (Some 0.125%float) None completed
              "2024-01-01T00:00:01.000Z" in
  let run :=
    createTransactions [(params, "t1", "2024-01-01T00:00:01.000Z")]%string
      ada_storage in
  fst run = Returned [tx]
  ∧ registry (snd run) = [User.with_balance ada (Some 0.13%float)]
  ∧ sum_of_net_effects [tx] = 0.125%float
  ∧ (0.125 =? 0.13)%float = false.
Proof. split_and!; vm_compute; reflexivity. Qed.

Lemma createTransaction_session_balance params uuid' now uuid b s tx s' :
  session_balance uuid b s →
  createTransactionForCurrentUser params uuid' now s = (Returned tx, s') →
  session_balance uuid (apply_transaction b tx) s'.
Proof.
  intros (Hcur & idx & u & Hfind & Hb) Hrun.
  destruct (createTransaction_returned _ _ _ _ _ _ Hrun) as [user Huser].
  destruct (session_user_list_find _ _ Huser) as (Hcur' & idx' & Hfind').
  assert (User.id user = uuid) as Hid by congruence.
  rewrite Hid in Hfind'. assert (user = u) as -> by congruence.
  pose proof (createTransaction_session_user params uuid' now s u Huser) as Hnew.
  rewrite Hrun in Hnew. simpl in Hnew.
  destruct (session_user_list_find _ _ Hnew) as (Hcur'' & idx'' & Hfind'').
  simpl in Hcur'', Hfind''. rewrite Hid in Hcur'', Hfind''.
  split; [done|]. eexists _, _. split; [exact Hfind''|]. simpl.
  destruct (createTransaction_effect _ _ _ _ _ _ Hrun)
    as (_ & _ & Htype & Hamount & Hfee & Htotal & _).
  unfold apply_transaction, persisted_balance, unrounded_balance.
  rewrite Htype, Hamount, Hfee, Htotal, Hb. unfold total_of.
  by destruct (Params.type params).
Qed.

Lemma createTransactions_session_balance calls uuid b s txs s' :
  session_balance uuid b s →
  createTransactions calls s = (Returned txs, s') →
  session_balance uuid (foldl apply_transaction b txs) s'
  ∧ length txs = length calls.
Proof.
  revert b s txs s'.
  induction calls as [|[[params uuid'] now] calls IH]; intros b s txs s' Hinv; simpl.
  - intros [= <- <-]. done.
  - unfold await at 1.
    destruct (createTransactionForCurrentUser params uuid' now s)
      as [[tx|e] s1] eqn:Hrun; [|discriminate].
    unfold await at 1.
    destruct (createTransactions calls s1) as [[txs'|e] s2] eqn:Hrest;
      [|discriminate].
    intros [= <- <-]. simpl.
    pose proof (createTransaction_session_balance _ _ _ _ _ _ _ _ Hinv Hrun) as H1.
    destruct (IH _ _ _ _ H1 Hrest) as [H2 Hlen]. split; [done|]. by rewrite Hlen.
Qed.

Lemma signupUser_session_balance name identifier password uuid now s user s0 :
  Forall (λ u, User.id u ≠ uuid) (registry s) →
  signupUser name identifier password uuid now s = (Returned user, s0) →
  session_balance uuid (Some 0%float) s0.
Proof.
  intros Hfresh Hrun.
  pose proof (signupUser_cases name identifier password uuid now s) as Hc.
  destruct (find _ _); [congruence|]. simpl in Hc.
  rewrite Hrun in Hc. injection Hc as -> ->.
  split; [done|]. unfold registry at 1. simpl.
  rewrite list_find_id_JSON_users, list_find_app_r
    by by apply list_find_None.
  simpl. rewrite decide_True by done. simpl. by eexists _, _.
Qed.

(** C1, amended. After signup (balance 0, with an id no other user has) and
    any sequence of N successful [createTransactionForCurrentUser] calls,
    the user's persisted balance is the fold, from 0 and in the order the
    calls completed, of: apply the transaction's net effect (minus total for
    send; plus amount minus fee for receive, topup and refund), round the
    result with [toFixed(2)], and keep what JSON keeps of it. *)
Theorem balance_fold_invariant
    name identifier password uuid now s user s0 calls txs s' :
  Forall (λ u, User.id u ≠ uuid) (registry s) →
  signupUser name identifier password uuid now s = (Returned user, s0) →
  createTransactions calls s0 = (Returned txs, s') →
  length txs = length calls
  ∧ ∃ user',
      find (λ u, User.id u = uuid) (registry s') = Some user'
      ∧ User.balance user' = foldl apply_transaction (Some 0%float) txs.
Proof.
  intros Hfresh Hsignup Hcalls.
  pose proof (signupUser_session_balance _ _ _ _ _ _ _ _ Hfresh Hsignup) as H0.
  destruct (createTransactions_session_balance _ _ _ _ _ _ H0 Hcalls)
    as [(_ & idx & u & Hfind & Hb) Hlen].
  split; [done|]. exists u. unfold find. by rewrite Hfind.
Qed.

(** Signup, a top-up of 100 with the default fee, a send of 50 with fee 5
    and a receive of 0.125 with fee 0: the balance goes 0, 90, 35, 35.13. *)
Lemma balance_fold_invariant_witness :
  let calls :=
    [(Params.make topup None 100 None None, "t1", "2024-01-01T00:00:01.000Z");
     (Params.make send (Some "Bob") 50 (Some 5%float) None, "t2",
      "2024-01-01T00:00:02.000Z");
     (Params.make receive (Some "Eve") 0.125 (Some 0%float) None, "t3",
      "2024-01-01T00:00:03.000Z")]%string in
  let s' := snd (createTransactions calls ada_storage) in
  ∃ user',
    find (λ u, User.id u = "u1"%string) (registry s') = Some user'
    ∧ User.balance user' = Some 35.13%float.
Proof.
  intros calls s'.
  assert (createTransactions calls ada_storage
          = (Returned (returned_list (createTransactions calls ada_storage)), s'))
    as Hcalls by (vm_compute; reflexivity).
  destruct (balance_fold_invariant "Ada" "ada@x.com" "secret1" "u1"
              "2024-01-01T00:00:00.000Z" empty_storage ada ada_storage
              calls _ s' (Forall_nil_2 _) eq_refl Hcalls)
    as (_ & user' & Hfind & Hbal).
  exists user'. split; [exact Hfind|].
  rewrite Hbal. vm_compute. reflexivity.
Defined.

(** * Further properties of [src/lib/storage.ts] *)

(** ** JSON round trips are idempotent *)

Lemma JSON_number_idem x y : JSON_number x = Some y → JSON_number y = Some y.
Proof.
  unfold JSON_number.
  destruct (is_nan x || is_infinity x) eqn:Hni; [discriminate|].
  destruct (is_zero x) eqn:Hz; intros [= <-]; [reflexivity|].
  by rewrite Hni, Hz.
Qed.

Lemma JSON_field_idem v : JSON_field (JSON_field v) = JSON_field v.
Proof.
  destruct v as [x|]; [|done]. simpl.
  destruct (JSON_number x) as [y|] eqn:Hx; [|done].
  simpl. by eapply JSON_number_idem.
Qed.

Lemma JSON_user_idem u : JSON_user (JSON_user u) = JSON_user u.
Proof. unfold JSON_user, User.with_balance. simpl. by rewrite JSON_field_idem. Qed.

Lemma JSON_transaction_idem t :
  JSON_transaction (JSON_transaction t) = JSON_transaction t.
Proof. unfold JSON_transaction. simpl. by rewrite !JSON_field_idem. Qed.

Lemma JSON_users_fixed (l : list User.t) :
  Forall (λ u, JSON_user u = u) (JSON_user <$> l).
Proof. apply Forall_fmap, Forall_true. intros u. apply JSON_user_idem. Qed.

Lemma JSON_transactions_fixed (l : list Transaction.t) :
  Forall (λ t, JSON_transaction t = t) (JSON_transaction <$> l).
Proof. apply Forall_fmap, Forall_true. intros t. apply JSON_transaction_idem. Qed.

Lemma fixed_fmap_id {A} (f : A → A) (l : list A) :
  Forall (λ x, f x = x) l → f <$> l = l.
Proof.
  induction 1 as [|x l Hx _ IH]; [done|]. by rewrite fmap_cons, Hx, IH.
Qed.

(** ** Failures *)

Lemma loginUser_cases identifier password s :
  match find (λ u, User.identifier u = identifier) (registry s) with
  | None =>
      loginUser identifier password s
      = (Thrown "No user found with that identifier.", s)
  | Some user =>
      let secret := secure_items s !! (SECRET_KEY_PREFIX ++ User.id user)%string in
      if truthy secret && bool_decide (secret = Some password)
      then loginUser identifier password s
           = (Returned user, with_session (User.id user) s)
      else loginUser identifier password s = (Thrown "Incorrect password.", s)
  end.
Proof.
  unfold loginUser, await, readJson_users, SecureStore_getItemAsync.
  fold (registry s). destruct (find _ _) as [user|]; [|done]. simpl.
  destruct (truthy _), (bool_decide _); done.
Qed.

(** X1. A login with an identifier that no user of the registry has throws
    "No user found with that identifier." and leaves every store as it
    was. *)
Theorem loginUser_unknown_identifier identifier password s :
  Forall (λ u, User.identifier u ≠ identifier) (registry s) →
  loginUser identifier password s
  = (Thrown "No user found with that identifier.", s).
Proof.
  intros Hall. pose proof (loginUser_cases identifier password s) as Hc.
  by rewrite (proj2 (find_None_Forall _ _) Hall) in Hc.
Qed.

Lemma loginUser_unknown_identifier_witness :
  loginUser "bob@x.com" "secret1" ada_storage
  = (Thrown "No user found with that identifier.", ada_storage).
Proof.
  apply (loginUser_unknown_identifier "bob@x.com" "secret1" ada_storage).
  vm_compute. repeat constructor. intros [=].
Defined.

(** X2. The module's own errors are thrown before anything is written.
    When a call to [signupUser], [loginUser], [logout] or
    [createTransactionForCurrentUser] throws one of the four messages of
    the module's [throw] statements, the stores are exactly as before the
    call, and the message is one that this operation throws: the
    duplicate-identifier one for signup, the no-user and the
    incorrect-password ones for login, the no-session one for transaction
    creation, none for logout. (An error with which AsyncStorage or
    SecureStore itself rejects is not one of these.) *)
Theorem throw_before_any_write c s message :
  message ∈ own_errors →
  failure_of c s = Some message →
  after c s = s ∧ message ∈ own_errors_of c.
Proof.
  intros _.
  destruct c as [name identifier password uuid now|identifier password|
                 |params uuid now]; unfold failure_of, failure, after.
  - pose proof (signupUser_cases name identifier password uuid now s) as Hc.
    destruct (find _ _); rewrite Hc; simpl; [|done].
    intros [= <-]. split; [done|]. set_solver.
  - pose proof (loginUser_cases identifier password s) as Hc.
    destruct (find _ _) as [user|]; simpl in Hc.
    + destruct (truthy _ && bool_decide _); rewrite Hc; simpl; [done|].
      intros [= <-]. split; [done|]. set_solver.
    + rewrite Hc. simpl. intros [= <-]. split; [done|]. set_solver.
  - done.
  - pose proof (createTransaction_cases params uuid now s) as Hc.
    destruct (session_user s).
    + destruct Hc as (tx & s' & ->). done.
    + rewrite Hc. simpl. intros [= <-]. split; [done|]. set_solver.
Qed.

Lemma throw_before_any_write_witness :
  after (Call_createTransaction (Params.make topup None 100 None None) "t1"
           "2024-01-01T00:00:01.000Z")
    empty_storage = empty_storage
  ∧ after (Call_loginUser "ada@x.com" "wrong") ada_storage = ada_storage.
Proof.
  split.
  - apply (throw_before_any_write
             (Call_createTransaction (Params.make topup None 100 None None) "t1"
                "2024-01-01T00:00:01.000Z")
             empty_storage "No logged-in user."); [|reflexivity].
    unfold own_errors. set_solver.
  - apply (throw_before_any_write (Call_loginUser "ada@x.com" "wrong")
             ada_storage "Incorrect password."); [|vm_compute; reflexivity].
    unfold own_errors. set_solver.
Defined.

(** ** Signup, logout, login *)

Lemma signupUser_getters_aux name identifier password uuid now s user s0 :
  uuid ≠ ""%string →
  Forall (λ u, User.id u ≠ uuid) (registry s) →
  signupUser name identifier password uuid now s = (Returned user, s0) →
  getCurrentUser s0 = (Returned (Some user), s0)
  ∧ getBalanceForCurrentUser s0 = (Returned 0%float, s0)
  ∧ getTransactionsForUser uuid s0 = (Returned [], s0).
Proof.
  intros Hne Hfresh Hrun.
  pose proof (signupUser_session_balance _ _ _ _ _ _ _ _ Hfresh Hrun)
    as (Hcur & idx & u & Hfind & Hb).
  pose proof (signupUser_cases name identifier password uuid now s) as Hc.
  destruct (find _ _); [congruence|]. simpl in Hc.
  rewrite Hrun in Hc. injection Hc as Huser Hs0.
  assert (u = user) as ->.
  { rewrite Hs0 in Hfind. unfold registry at 1 in Hfind. simpl in Hfind.
    rewrite list_find_id_JSON_users, list_find_app_r in Hfind
      by by apply list_find_None.
    simpl in Hfind. rewrite decide_True in Hfind by done.
    simpl in Hfind. injection Hfind as _ <-. by rewrite Huser. }
  assert (session_user s0 = Some user) as Hsession.
  { eapply session_user_intro; [exact Hcur| |exact Hfind].
    simpl. by destruct (String.eqb_spec uuid ""). }
  split_and!.
  - by rewrite getCurrentUser_session_user, Hsession.
  - unfold getBalanceForCurrentUser, await.
    rewrite getCurrentUser_session_user, Hsession. by rewrite Hb.
  - unfold getTransactionsForUser, await, readJson_txs, resolve.
    rewrite Hs0. simpl. by rewrite lookup_insert_eq.
Qed.

(** X3. After a signup that returns, with an id that is not empty and that
    no user of the registry has: the returned user has the given name and
    identifier, the generated id, balance 0 and the creation time;
    [getCurrentUser] returns that user, [getBalanceForCurrentUser] returns 0,
    [getTransactionsForUser] of the new id returns the empty list, and the
    secret store holds the password under the new id's key. *)
Theorem signupUser_then_getters name identifier password uuid now s user s0 :
  uuid ≠ ""%string →
  Forall (λ u, User.id u ≠ uuid) (registry s) →
  signupUser name identifier password uuid now s = (Returned user, s0) →
  user = User.make uuid name identifier (Some 0%float) now
  ∧ getCurrentUser s0 = (Returned (Some user), s0)
  ∧ getBalanceForCurrentUser s0 = (Returned 0%float, s0)
  ∧ getTransactionsForUser uuid s0 = (Returned [], s0)
  ∧ secure_items s0 !! (SECRET_KEY_PREFIX ++ uuid)%string = Some password.
Proof.
  intros Hne Hfresh Hrun.
  destruct (signupUser_getters_aux _ _ _ _ _ _ _ _ Hne Hfresh Hrun)
    as (Hcur & Hbal & Hlist).
  pose proof (signupUser_cases name identifier password uuid now s) as Hc.
  destruct (find _ _); [congruence|]. simpl in Hc.
  rewrite Hrun in Hc. injection Hc as Huser Hs0.
  split_and!; [done..|].
  rewrite Hs0. simpl. by rewrite lookup_insert_eq.
Qed.

Lemma signupUser_then_getters_witness :
  getCurrentUser ada_storage = (Returned (Some ada), ada_storage)
  ∧ getTransactionsForUser "u1" ada_storage = (Returned [], ada_storage).
Proof.
  destruct (signupUser_then_getters "Ada" "ada@x.com" "secret1" "u1"
              "2024-01-01T00:00:00.000Z" empty_storage ada ada_storage)
    as (_ & Hcur & _ & Hlist & _).
  - intros [=].
  - constructor.
  - reflexivity.
  - by split.
Defined.

(** X4. Signup, logout, login: after a signup that returns, logging out and
    logging in again with the same identifier and the same, non-empty
    password returns the same user and puts the stores back exactly as
    the signup left them. *)
Theorem signup_logout_login name identifier password uuid now s user s0 :
  password ≠ ""%string →
  signupUser name identifier password uuid now s = (Returned user, s0) →
  loginUser identifier password (snd (logout s0)) = (Returned user, s0).
Proof.
  intros Hpw Hrun.
  pose proof (signupUser_cases name identifier password uuid now s) as Hc.
  destruct (find _ _) eqn:Hnone; [congruence|]. simpl in Hc.
  rewrite Hrun in Hc. injection Hc as Huser Hs0.
  pose proof (loginUser_cases identifier password (snd (logout s0))) as Hl.
  assert (find (λ u, User.identifier u = identifier) (registry (snd (logout s0)))
          = Some user) as Hfind.
  { rewrite Hs0. unfold registry at 1, find. simpl.
    rewrite list_find_fmap.
    rewrite (list_find_ext _ (λ u, User.identifier u = identifier)) by done.
    rewrite list_find_app_r.
    - simpl. rewrite decide_True by done. simpl. by rewrite Huser.
    - unfold find in Hnone. by apply fmap_None in Hnone. }
  rewrite Hfind in Hl. simpl in Hl.
  assert (secure_items s0 !! (SECRET_KEY_PREFIX ++ User.id user)%string
          = Some password) as Hsecret.
  { rewrite Hs0, Huser. simpl. by rewrite lookup_insert_eq. }
  rewrite Hsecret in Hl. simpl in Hl.
  destruct (String.eqb_spec password ""); [done|]. simpl in Hl.
  rewrite bool_decide_eq_true_2 in Hl by done.
  simpl. rewrite Hl. f_equal. rewrite Hs0, Huser. reflexivity.
Qed.

Lemma signup_logout_login_witness :
  loginUser "ada@x.com" "secret1" (snd (logout ada_storage))
  = (Returned ada, ada_storage).
Proof.
  apply (signup_logout_login "Ada" "ada@x.com" "secret1" "u1"
           "2024-01-01T00:00:00.000Z" empty_storage ada ada_storage).
  - intros [=].
  - reflexivity.
Defined.

(** X5. When [logout] returns, it has removed the session pointer and
    touched nothing else; afterwards [getCurrentUser] returns [null],
    [getBalanceForCurrentUser] returns 0, every
    [createTransactionForCurrentUser] throws "No logged-in user.", and a
    second [logout] that returns changes nothing. *)
Theorem logout_clears_session s s' :
  logout s = (Returned (), s') →
  current_user_item s' = None
  ∧ users_item s' = users_item s
  ∧ tx_items s' = tx_items s
  ∧ secure_items s' = secure_items s
  ∧ getCurrentUser s' = (Returned None, s')
  ∧ getBalanceForCurrentUser s' = (Returned 0%float, s')
  ∧ (∀ params uuid now,
       createTransactionForCurrentUser params uuid now s'
       = (Thrown "No logged-in user.", s'))
  ∧ (∀ s'', logout s' = (Returned (), s'') → s'' = s').
Proof.
  intros [= <-]. split_and!; try done.
  by intros s'' [= <-].
Qed.

Lemma logout_clears_session_witness :
  getCurrentUser (snd (logout paid_storage))
  = (Returned None, snd (logout paid_storage))
  ∧ users_item (snd (logout paid_storage)) = users_item paid_storage.
Proof.
  destruct (logout_clears_session paid_storage (snd (logout paid_storage))
              eq_refl) as (_ & Husers & _ & _ & Hcur & _).
  by split.
Defined.

(** ** Listing *)

(** X6. [getTransactionsForUser] never throws and never writes; it returns
    the stored log of that user in some order (every stored transaction,
    as often as it is stored), and the empty list when nothing is stored
    under the user's key. *)
Theorem getTransactionsForUser_reads userId s :
  ∃ txs,
    getTransactionsForUser userId s = (Returned txs, s)
    ∧ txs ≡ₚ log_of userId s
    ∧ (tx_items s !! (TX_KEY_PREFIX ++ userId)%string = None → txs = []).
Proof.
  exists (Array_sort newest_first (log_of userId s)). split_and!.
  - done.
  - apply Array_sort_Permutation.
  - unfold log_of. by intros ->.
Qed.

(** ** What transaction creation writes *)

Lemma Array_sort_sorted (l : list Transaction.t) :
  StronglySorted newer l → Array_sort newest_first l = l.
Proof.
  intros Hsorted. symmetry.
  apply (sorted_permutation_unique (reverse l)).
  - apply reverse_Permutation.
  - rewrite <- (reverse_involutive l) in Hsorted.
    apply (StronglySorted_reverse newer) in Hsorted.
    by rewrite reverse_involutive in Hsorted.
  - done.
  - apply (StronglySorted_weaken newer); [|done].
    intros a b Hab. apply need_not_follow_newest_first. by apply ltb_asym.
Qed.

Lemma createTransaction_log params uuid now s tx s' :
  createTransactionForCurrentUser params uuid now s = (Returned tx, s') →
  ∃ user,
    session_user s = Some user
    ∧ tx = Transaction.make uuid (User.id user) (Params.type params)
             (Params.counterparty params) (Some (Params.amount params))
             (Some (fee_of params)) (Some (total_of params)) (Params.note params)
             completed now
    ∧ tx_items s'
      = <[(TX_KEY_PREFIX ++ User.id user)%string :=
            JSON_transaction <$> (tx :: log_of (User.id user) s)]> (tx_items s)
    ∧ current_user_item s' = current_user_item s
    ∧ secure_items s' = secure_items s.
Proof.
  intros Hrun.
  destruct (createTransaction_returned _ _ _ _ _ _ Hrun) as [user Huser].
  destruct (createTransaction_with_session params uuid now s user Huser)
    as (idx & _ & Heq).
  simpl in Heq. rewrite Hrun in Heq. injection Heq as -> ->.
  exists user. by split_and!.
Qed.

(** X7. A successful [createTransactionForCurrentUser] puts the new
    transaction, with the generated id, the session user's id as owner,
    status completed and the creation time, at the head of that user's
    stored log and keeps the entries that were there, in their order (as
    JSON keeps them; unchanged when they came from JSON); it touches no
    other log, nor the session pointer, nor the secret store. *)
Theorem createTransaction_prepends params uuid now s tx s' :
  createTransactionForCurrentUser params uuid now s = (Returned tx, s') →
  ∃ user,
    getCurrentUser s = (Returned (Some user), s)
    ∧ Transaction.id tx = uuid
    ∧ Transaction.userId tx = User.id user
    ∧ Transaction.status tx = completed
    ∧ Transaction.createdAt tx = now
    ∧ log_of (User.id user) s'
      = JSON_transaction tx :: (JSON_transaction <$> log_of (User.id user) s)
    ∧ (JSON_normal s →
       log_of (User.id user) s' = JSON_transaction tx :: log_of (User.id user) s)
    ∧ (∀ key, key ≠ (TX_KEY_PREFIX ++ User.id user)%string →
         tx_items s' !! key = tx_items s !! key)
    ∧ current_user_item s' = current_user_item s
    ∧ secure_items s' = secure_items s.
Proof.
  intros Hrun.
  destruct (createTransaction_log _ _ _ _ _ _ Hrun)
    as (user & Huser & Htx & Hlogs & Hcur & Hsec).
  exists user. rewrite getCurrentUser_session_user, Huser.
  assert (log_of (User.id user) s'
          = JSON_transaction tx :: (JSON_transaction <$> log_of (User.id user) s))
    as Hlog.
  { unfold log_of at 1. by rewrite Hlogs, lookup_insert_eq. }
  split_and!; try done; try by rewrite Htx.
  - intros [_ Hnormal]. rewrite Hlog. f_equal.
    apply fixed_fmap_id. unfold log_of.
    destruct (tx_items s !! _) as [l|] eqn:Hl; [by eapply Hnormal|constructor].
  - intros key Hkey. by rewrite Hlogs, lookup_insert_ne.
Qed.

Lemma createTransaction_prepends_witness :
  log_of "u1" paid_storage
  = [Transaction.make "t1" "u1" send (Some "Bob") (Some 50%float) (Some 5%float)
       (Some 55%float) None completed "2024-01-01T00:00:01.000Z"].
Proof.
  destruct (createTransaction_prepends
              (Params.make send (Some "Bob") 50 (Some 5%float) None) "t1"
              "2024-01-01T00:00:01.000Z" ada_storage
              (Transaction.make "t1" "u1" send (Some "Bob") (Some 50%float)
                 (Some 5%float) (Some 55%float) None completed
                 "2024-01-01T00:00:01.000Z")
              paid_storage)
    as (user & Hcur & _ & Huid & _ & _ & Hlog & _).
  - vm_compute. reflexivity.
  - simpl in Huid. rewrite <- Huid in Hlog. rewrite Hlog. vm_compute. reflexivity.
Defined.

(** X8. Creation then listing: when the session user's stored log is in
    strictly descending [createdAt] order and the creation time is later
    than every stored timestamp, [getTransactionsForUser] after a successful
    [createTransactionForCurrentUser] returns the new transaction first,
    followed by the previous entries in their order. *)
Theorem createTransaction_then_list params uuid now s tx s' user :
  getCurrentUser s = (Returned (Some user), s) →
  StronglySorted newer (log_of (User.id user) s) →
  Forall (before now) (log_of (User.id user) s) →
  createTransactionForCurrentUser params uuid now s = (Returned tx, s') →
  getTransactionsForUser (User.id user) s'
  = (Returned
       (JSON_transaction tx :: (JSON_transaction <$> log_of (User.id user) s)),
     s').
Proof.
  intros Hcur Hsorted Hbefore Hrun.
  rewrite getCurrentUser_session_user in Hcur. injection Hcur as Hcur.
  destruct (createTransaction_log _ _ _ _ _ _ Hrun)
    as (user' & Huser & Htx & Hlogs & _).
  assert (user' = user) as -> by congruence.
  unfold getTransactionsForUser, await, readJson_txs, resolve.
  rewrite Hlogs, lookup_insert_eq. do 2 f_equal.
  etrans; [apply (Array_sort_sorted
                    (JSON_transaction <$> tx :: log_of (User.id user) s))
          |reflexivity].
  apply (StronglySorted_fmap JSON_transaction newer newer).
  - intros a b Hab. exact Hab.
  - constructor; [done|].
    eapply Forall_impl; [exact Hbefore|]. intros t Ht.
    unfold newer, older, before in *. by rewrite Htx.
Qed.

Lemma createTransaction_then_list_witness :
  let params := Params.make topup None 100 None None in
  let now := "2024-01-01T00:00:02.000Z"%string in
  let run := createTransactionForCurrentUser params "t2" now paid_storage in
  Transaction.id <$> returned_list (getTransactionsForUser "u1" (snd run))
  = ["t2"; "t1"]%string.
Proof.
  intros params now run.
  assert (run = (Returned (Transaction.make "t2" "u1" topup None (Some 100%float)
                             (Some 10%float) (Some 90%float) None completed now),
                 snd run)) as Hrun by (vm_compute; reflexivity).
  assert (getCurrentUser paid_storage
          = (Returned (Some (User.with_balance ada (Some (-55)%float))),
             paid_storage)) as Hcur by (vm_compute; reflexivity).
  assert (StronglySorted newer (log_of "u1" paid_storage)) as Hsorted
    by (vm_compute; repeat constructor).
  assert (Forall (before now) (log_of "u1" paid_storage)) as Hbefore
    by (vm_compute; repeat constructor).
  pose proof (createTransaction_then_list params "t2" now paid_storage _ _ _
                Hcur Hsorted Hbefore Hrun) as Hlist.
  change (User.id (User.with_balance ada (Some (-55)%float)))
    with "u1"%string in Hlist.
  rewrite Hlist. vm_compute. reflexivity.
Defined.

(** ** What each call does to each store *)

Lemma registry_after c s :
  registry (after c s) = registry s
  ∨ (∃ name identifier password uuid now,
       c = Call_signupUser name identifier password uuid now
       ∧ find (λ u, User.identifier u = identifier) (registry s) = None
       ∧ registry (after c s)
         = JSON_user <$>
             (registry s ++ [User.make uuid name identifier (Some 0%float) now]))
  ∨ (∃ params uuid now idx user,
       c = Call_createTransaction params uuid now
       ∧ session_user s = Some user
       ∧ list_find (λ u, User.id u = User.id user) (registry s) = Some (idx, user)
       ∧ registry (after c s)
         = JSON_user <$>
             <[idx := User.with_balance user
                        (Some (to_number
                                 (toFixed
                                    (unrounded_balance params (User.balance user))
                                    2)))]> (registry s)).
Proof.
  destruct c as [name identifier password uuid now|identifier password|
                 |params uuid now]; unfold after.
  - pose proof (signupUser_cases name identifier password uuid now s) as Hc.
    destruct (find _ _) eqn:Hfind; rewrite Hc; simpl; [by left|].
    right. left. by eexists _, _, _, _, _.
  - left. unfold registry. by rewrite loginUser_registry.
  - by left.
  - destruct (session_user s) as [user|] eqn:Huser.
    + destruct (createTransaction_with_session params uuid now s user Huser)
        as (idx & Hfind & Hrun). simpl in Hrun. rewrite Hrun.
      right. right. by eexists _, _, _, idx, user.
    + left. pose proof (createTransaction_cases params uuid now s) as Hc.
      rewrite Huser in Hc. by rewrite Hc.
Qed.

Lemma tx_items_after c s :
  tx_items (after c s) = tx_items s
  ∨ ∃ key l, tx_items (after c s) = <[key := JSON_transaction <$> l]> (tx_items s).
Proof.
  destruct c as [name identifier password uuid now|identifier password|
                 |params uuid now]; unfold after.
  - pose proof (signupUser_cases name identifier password uuid now s) as Hc.
    destruct (find _ _); rewrite Hc; simpl; [by left|].
    right. by exists (TX_KEY_PREFIX ++ uuid)%string, [].
  - left. pose proof (loginUser_cases identifier password s) as Hc.
    destruct (find _ _); simpl in Hc; [|by rewrite Hc].
    destruct (truthy _ && bool_decide _); by rewrite Hc.
  - by left.
  - destruct (createTransactionForCurrentUser params uuid now s) as [[tx|e] s']
      eqn:Hrun.
    + destruct (createTransaction_log _ _ _ _ _ _ Hrun)
        as (user & _ & _ & Hlogs & _). right. simpl. eauto.
    + left. pose proof (createTransaction_cases params uuid now s) as Hc.
      destruct (session_user s).
      * destruct Hc as (? & ? & Hc). congruence.
      * rewrite Hrun in Hc. by injection Hc as _ ->.
Qed.

Lemma secure_items_after c s :
  secure_items (after c s) = secure_items s
  ∨ ∃ name identifier password uuid now,
      c = Call_signupUser name identifier password uuid now
      ∧ secure_items (after c s)
        = <[(SECRET_KEY_PREFIX ++ uuid)%string := password]> (secure_items s).
Proof.
  destruct c as [name identifier password uuid now|identifier password|
                 |params uuid now]; unfold after.
  - pose proof (signupUser_cases name identifier password uuid now s) as Hc.
    destruct (find _ _); rewrite Hc; simpl; [by left|].
    right. by eexists _, _, _, _, _.
  - left. pose proof (loginUser_cases identifier password s) as Hc.
    destruct (find _ _); simpl in Hc; [|by rewrite Hc].
    destruct (truthy _ && bool_decide _); by rewrite Hc.
  - by left.
  - left. destruct (createTransactionForCurrentUser params uuid now s)
      as [[tx|e] s'] eqn:Hrun.
    + by destruct (createTransaction_log _ _ _ _ _ _ Hrun)
        as (user & _ & _ & _ & _ & Hsec).
    + pose proof (createTransaction_cases params uuid now s) as Hc.
      destruct (session_user s).
      * destruct Hc as (? & ? & Hc). congruence.
      * rewrite Hrun in Hc. by injection Hc as _ ->.
Qed.

Lemma identity_JSON_users (l : list User.t) :
  identity <$> (JSON_user <$> l) = identity <$> l.
Proof. rewrite <- list_fmap_compose. by apply list_fmap_ext. Qed.

Lemma identity_after c s :
  identity <$> registry (after c s) = identity <$> registry s
  ∨ ∃ name identifier password uuid now,
      c = Call_signupUser name identifier password uuid now
      ∧ find (λ u, User.identifier u = identifier) (registry s) = None
      ∧ identity <$> registry (after c s)
        = (identity <$> registry s) ++ [(uuid, name, identifier, now)].
Proof.
  destruct (registry_after c s)
    as [-> | [(name & identifier & password & uuid & now & -> & Hnone & ->)
             |(params & uuid & now & idx & user & -> & _ & Hfind & ->)]].
  - by left.
  - right. exists name, identifier, password, uuid, now.
    split_and!; [done..|]. by rewrite identity_JSON_users, fmap_app.
  - left. rewrite identity_JSON_users, list_fmap_insert.
    apply list_find_Some in Hfind as (Hidx & _).
    apply list_insert_id. by rewrite list_lookup_fmap, Hidx.
Qed.

(** ** Users are never removed, reordered or renamed *)

Lemma identity_prefix_after_all cs s :
  identity <$> registry s `prefix_of` identity <$> registry (after_all cs s).
Proof.
  revert s. induction cs as [|c cs IH]; intros s; [done|]. simpl.
  etrans; [|apply IH].
  destruct (identity_after c s) as [-> | (? & ? & ? & ? & ? & _ & _ & ->)];
    [done | by apply prefix_app_r].
Qed.

(** X9. Whatever the call and whether it returns or throws, the users that
    were in the registry are still there afterwards, in the same positions
    and with the same id, name, identifier and creation time; the registry
    only ever grows at its end. The same holds after any sequence of
    calls. *)
Theorem registry_only_grows cs s :
  identity <$> registry s `prefix_of` identity <$> registry (after_all cs s).
Proof. apply identity_prefix_after_all. Qed.

(** ** Invariants of the reachable states *)

Lemma id_of_identity (l : list User.t) :
  User.id <$> l = (λ i, i.1.1.1) <$> (identity <$> l).
Proof. rewrite <- list_fmap_compose. by apply list_fmap_ext. Qed.

Lemma ids_after c s id :
  id ∈ User.id <$> registry s → id ∈ User.id <$> registry (after c s).
Proof.
  rewrite !id_of_identity.
  destruct (identity_after c s) as [-> | (? & ? & ? & ? & ? & _ & _ & ->)];
    [done|].
  rewrite fmap_app. intros Hin. apply elem_of_app. by left.
Qed.

Lemma session_after c s :
  current_user_item (after c s) = current_user_item s
  ∨ current_user_item (after c s) = None
  ∨ ∃ id, current_user_item (after c s) = Some id
          ∧ id ∈ User.id <$> registry (after c s).
Proof.
  destruct c as [name identifier password uuid now|identifier password|
                 |params uuid now]; unfold after.
  - pose proof (signupUser_cases name identifier password uuid now s) as Hc.
    destruct (find _ _); rewrite Hc; simpl; [by left|].
    right. right. exists uuid. split; [done|].
    unfold registry at 1. simpl.
    rewrite <- list_fmap_compose, fmap_app. apply elem_of_app. right.
    apply list_elem_of_here.
  - pose proof (loginUser_cases identifier password s) as Hc.
    destruct (find _ _) as [user|] eqn:Hfind; simpl in Hc; [|rewrite Hc; by left].
    destruct (truthy _ && bool_decide _); rewrite Hc; [|by left].
    right. right. exists (User.id user). split; [done|].
    unfold find in Hfind. apply fmap_Some in Hfind as ([i u] & Hfind & ->).
    apply list_find_Some in Hfind as (Hi & _).
    apply list_elem_of_fmap_2. by eapply list_elem_of_lookup_2.
  - right. by left.
  - left. destruct (createTransactionForCurrentUser params uuid now s)
      as [[tx|e] s'] eqn:Hrun.
    + by destruct (createTransaction_log _ _ _ _ _ _ Hrun)
        as (user & _ & _ & _ & Hcur & _).
    + pose proof (createTransaction_cases params uuid now s) as Hc.
      destruct (session_user s).
      * destruct Hc as (? & ? & Hc). congruence.
      * rewrite Hrun in Hc. by injection Hc as _ ->.
Qed.

Lemma reachable_session_in_registry s id :
  reachable s → current_user_item s = Some id → id ∈ User.id <$> registry s.
Proof.
  intros Hs. revert id. induction Hs as [|c s Hs IH]; intros id; [done|].
  destruct (session_after c s) as [Heq | [Heq | (id' & Heq & Hin)]];
    rewrite Heq.
  - intros Hid. by apply ids_after, IH.
  - done.
  - by intros [= <-].
Qed.

(** X10. In every state reachable from empty stores through signup, login,
    logout and transaction creation, a session pointer that is set names a
    user of the registry: [getCurrentUser] then returns a user with that
    id (unless the id is the empty string, which counts as no session). *)
Theorem reachable_session_not_dangling s id :
  reachable s → current_user_item s = Some id →
  (∃ user, user ∈ registry s ∧ User.id user = id)
  ∧ (id ≠ ""%string →
     ∃ user, getCurrentUser s = (Returned (Some user), s) ∧ User.id user = id).
Proof.
  intros Hs Hid.
  pose proof (reachable_session_in_registry s id Hs Hid) as Hin.
  apply list_elem_of_fmap in Hin as (user & -> & Hin).
  split; [by exists user|].
  intros Hne. rewrite getCurrentUser_session_user. unfold session_user.
  rewrite Hid. simpl. destruct (String.eqb_spec (User.id user) ""); [done|].
  simpl. unfold find.
  destruct (list_find_elem_of (λ u, Some (User.id u) = Some (User.id user))
              (registry s) user Hin eq_refl) as [[i u] Hfind].
  rewrite Hfind. simpl. exists u. split; [done|].
  apply list_find_Some in Hfind as (_ & [= ->] & _). done.
Qed.

Lemma reachable_session_not_dangling_witness :
  ∃ user, getCurrentUser paid_storage = (Returned (Some user), paid_storage)
          ∧ User.id user = "u1"%string.
Proof.
  apply (reachable_session_not_dangling paid_storage "u1").
  - exact (reachable_after
             (Call_createTransaction
                (Params.make send (Some "Bob") 50 (Some 5%float) None) "t1"
                "2024-01-01T00:00:01.000Z") _ ada_storage_reachable).
  - reflexivity.
  - intros [=].
Defined.

Lemma at_most_two_decimals_zero : at_most_two_decimals (Some 0%float).
Proof. right. left. by exists false, 0. Qed.

Lemma JSON_user_balance_fixed u :
  JSON_user u = u → JSON_field (User.balance u) = User.balance u.
Proof. intros H. by rewrite <- H at 2. Qed.

Lemma reachable_JSON_normal_and_rounded s :
  reachable s →
  JSON_normal s
  ∧ Forall (λ u, at_most_two_decimals (User.balance u)) (registry s).
Proof.
  induction 1 as [|c s Hs [[Husers Hlogs] Hround]].
  { split; [split|]; [constructor| |constructor].
    intros key l Hl. simpl in Hl. by rewrite lookup_empty in Hl. }
  split; [split|].
  - destruct (registry_after c s) as [-> | [(? & ? & ? & ? & ? & _ & _ & ->)
                                           |(? & ? & ? & ? & ? & _ & _ & _ & ->)]];
      [done | apply JSON_users_fixed..].
  - intros key l.
    destruct (tx_items_after c s) as [-> | (key' & l' & ->)]; [apply Hlogs|].
    destruct (decide (key' = key)) as [->|Hne].
    + rewrite lookup_insert_eq. intros [= <-]. apply JSON_transactions_fixed.
    + rewrite lookup_insert_ne by done. apply Hlogs.
  - destruct (registry_after c s)
      as [-> | [(name & identifier & password & uuid & now & _ & _ & ->)
               |(params & uuid & now & idx & user & _ & _ & Hfind & ->)]].
    + done.
    + rewrite fmap_app, (fixed_fmap_id JSON_user _ Husers).
      apply Forall_app. split; [done|].
      apply Forall_singleton. exact at_most_two_decimals_zero.
    + rewrite list_fmap_insert, (fixed_fmap_id JSON_user _ Husers).
      apply Forall_insert; [done|]. simpl.
      apply toFixed_2_at_most_two_decimals.
Qed.

(** X11. In every reachable state, every balance in the registry is [null],
    a decimal with two fractional digits, or a Number without fractional
    part; and every stored user and transaction is unchanged by a further
    JSON round trip (so rewriting the registry or a log leaves the other
    records as they were). *)
Theorem reachable_balances_rounded s user :
  reachable s → user ∈ registry s →
  at_most_two_decimals (User.balance user) ∧ JSON_user user = user.
Proof.
  intros Hs Hin.
  destruct (reachable_JSON_normal_and_rounded s Hs) as [[Husers _] Hround].
  rewrite Forall_forall in Husers, Hround. auto.
Qed.

Lemma reachable_balances_rounded_witness :
  at_most_two_decimals (Some (-55)%float).
Proof.
  apply (reachable_balances_rounded paid_storage
           (User.with_balance ada (Some (-55)%float))).
  - exact (reachable_after
             (Call_createTransaction
                (Params.make send (Some "Bob") 50 (Some 5%float) None) "t1"
                "2024-01-01T00:00:01.000Z") _ ada_storage_reachable).
  - vm_compute. apply list_elem_of_here.
Defined.

(** X12. A successful [createTransactionForCurrentUser] on stores that hold
    what JSON returns (every reachable state does) changes the registry in
    one place only: the balance of the session's user. The registry keeps
    its length, every other user is exactly as before, and the id, name,
    identifier and creation time of the session's user are unchanged. *)
Theorem createTransaction_updates_one_balance params uuid now s tx s' :
  JSON_normal s →
  createTransactionForCurrentUser params uuid now s = (Returned tx, s') →
  ∃ idx user,
    getCurrentUser s = (Returned (Some user), s)
    ∧ registry s !! idx = Some user
    ∧ registry s'
      = <[idx := User.with_balance user
                   (persisted_balance params (User.balance user))]> (registry s)
    ∧ length (registry s') = length (registry s)
    ∧ (∀ j, j ≠ idx → registry s' !! j = registry s !! j).
Proof.
  intros [Husers _] Hrun.
  destruct (createTransaction_returned _ _ _ _ _ _ Hrun) as [user Huser].
  destruct (createTransaction_with_session params uuid now s user Huser)
    as (idx & Hfind & Heq).
  simpl in Heq. rewrite Hrun in Heq. injection Heq as _ Hs'.
  pose proof Hfind as (Hidx & _)%list_find_Some.
  assert (registry s'
          = <[idx := User.with_balance user
                       (persisted_balance params (User.balance user))]>
              (registry s)) as Hreg.
  { rewrite Hs'. unfold registry at 1. simpl.
    by rewrite list_fmap_insert, (fixed_fmap_id JSON_user _ Husers). }
  exists idx, user. rewrite getCurrentUser_session_user, Huser.
  split_and!; [done..| |].
  - by rewrite Hreg, length_insert.
  - intros j Hj. by rewrite Hreg, list_lookup_insert_ne.
Qed.

Lemma createTransaction_updates_one_balance_witness :
  ∃ idx user,
    getCurrentUser ada_storage = (Returned (Some user), ada_storage)
    ∧ registry ada_storage !! idx = Some user
    ∧ registry paid_storage
      = <[idx := User.with_balance user
                   (persisted_balance
                      (Params.make send (Some "Bob"%string) 50 (Some 5%float) None)
                      (User.balance user))]> (registry ada_storage)
    ∧ length (registry paid_storage) = length (registry ada_storage)
    ∧ (∀ j, j ≠ idx → registry paid_storage !! j = registry ada_storage !! j).
Proof.
  apply (createTransaction_updates_one_balance
           (Params.make send (Some "Bob"%string) 50 (Some 5%float) None) "t1"
           "2024-01-01T00:00:01.000Z" ada_storage
           (Transaction.make "t1" "u1" send (Some "Bob"%string) (Some 50%float)
              (Some 5%float) (Some 55%float) None completed
              "2024-01-01T00:00:01.000Z")
           paid_storage).
  - apply (reachable_JSON_normal_and_rounded _ ada_storage_reachable).
  - vm_compute. reflexivity.
Defined.

(** ** Login and the secret store *)

(** X13. [loginUser] writes at most the session pointer: the registry, the
    transaction logs and the secret store are as before, whatever the
    arguments; when it returns, the user it returns is in the registry and
    has the given identifier, and the session pointer is that user's id;
    when it throws, the session pointer too is as before. *)
Theorem loginUser_writes_session_only identifier password s :
  let run := loginUser identifier password s in
  users_item (snd run) = users_item s
  ∧ tx_items (snd run) = tx_items s
  ∧ secure_items (snd run) = secure_items s
  ∧ match fst run with
    | Returned user =>
        user ∈ registry s ∧ User.identifier user = identifier
        ∧ current_user_item (snd run) = Some (User.id user)
    | Thrown _ => current_user_item (snd run) = current_user_item s
    end.
Proof.
  intros run. subst run.
  pose proof (loginUser_cases identifier password s) as Hc.
  destruct (find _ _) as [user|] eqn:Hfind; simpl in Hc; [|by rewrite Hc].
  destruct (truthy _ && bool_decide _); rewrite Hc; simpl; [|done].
  split_and!; [done..| | |done].
  - unfold find in Hfind. apply fmap_Some in Hfind as ([i u] & Hfind & ->).
    apply list_find_Some in Hfind as (Hi & _). by eapply list_elem_of_lookup_2.
  - unfold find in Hfind. apply fmap_Some in Hfind as ([i u] & Hfind & ->).
    by apply list_find_Some in Hfind as (_ & Hid & _).
Qed.

Lemma secure_items_after_all cs s key :
  Forall (λ c, ∀ uuid, signs_up_as uuid c → (SECRET_KEY_PREFIX ++ uuid)%string ≠ key)
    cs →
  secure_items (after_all cs s) !! key = secure_items s !! key.
Proof.
  intros Hcs. revert s. induction Hcs as [|c cs Hc _ IH]; intros s; [done|].
  simpl. rewrite IH.
  destruct (secure_items_after c s)
    as [-> | (name & identifier & password & uuid & now & -> & ->)]; [done|].
  apply lookup_insert_ne. by apply Hc.
Qed.

Lemma secret_key_after_all cs s uuid :
  Forall (λ c, ¬ signs_up_as uuid c) cs →
  secure_items (after_all cs s) !! (SECRET_KEY_PREFIX ++ uuid)%string
  = secure_items s !! (SECRET_KEY_PREFIX ++ uuid)%string.
Proof.
  intros Hcs. apply secure_items_after_all.
  eapply Forall_impl; [exact Hcs|]. intros c Hc uuid' Hsigns Heq.
  apply Hc. destruct (keys_disjoint uuid' uuid) as (_ & _ & _ & _ & Hinj).
  rewrite <- (Hinj Heq). exact Hsigns.
Qed.

(** X14. The secret stored for an id is written by the signup that
    generates that id and by nothing else: after any sequence of calls none
    of which is a signup with that id, the secret store holds under that
    id's key exactly what it held before. *)
Theorem secret_written_by_signup_only cs s uuid :
  Forall (λ c, ¬ signs_up_as uuid c) cs →
  secure_items (after_all cs s) !! (SECRET_KEY_PREFIX ++ uuid)%string
  = secure_items s !! (SECRET_KEY_PREFIX ++ uuid)%string.
Proof.
  apply secret_key_after_all.
Qed.

Lemma secret_written_by_signup_only_witness :
  secure_items
    (after_all [Call_logout; Call_loginUser "ada@x.com" "wrong";
                Call_signupUser "Bob" "bob@x.com" "secret3" "u2"
                  "2024-01-02T00:00:00.000Z"]
       paid_storage) !! (SECRET_KEY_PREFIX ++ "u1")%string
  = Some "secret1"%string.
Proof.
  rewrite (secret_written_by_signup_only _ paid_storage "u1").
  - vm_compute. reflexivity.
  - repeat constructor; simpl; try tauto. intros [=].
Defined.

Lemma list_find_identifier_identity identifier (l : list User.t) :
  list_find (λ i : string * string * string * string, i.1.2 = identifier)
    (identity <$> l)
  = prod_map (λ i, i) identity
      <$> list_find (λ u, User.identifier u = identifier) l.
Proof. rewrite list_find_fmap. f_equal. Qed.

(** X15. Credentials keep working: after a signup that returns with a
    non-empty password, and then any sequence of signups, logins, logouts
    and transactions in which the generated id is not generated again, a
    login with the same identifier and password returns the user with that
    id, name, identifier and creation time, and sets the session pointer to
    the id (changing nothing else). *)
Theorem login_after_any_calls name identifier password uuid now s user s0 cs :
  password ≠ ""%string →
  signupUser name identifier password uuid now s = (Returned user, s0) →
  Forall (λ c, ¬ signs_up_as uuid c) cs →
  ∃ user',
    loginUser identifier password (after_all cs s0)
    = (Returned user', with_session uuid (after_all cs s0))
    ∧ identity user' = identity user.
Proof.
  intros Hpw Hrun Hcs.
  pose proof (signupUser_cases name identifier password uuid now s) as Hc.
  destruct (find _ _) eqn:Hnone; [congruence|]. simpl in Hc.
  rewrite Hrun in Hc. injection Hc as Huser Hs0.
  set (s1 := after_all cs s0).
  (* the secret is still there *)
  assert (secure_items s1 !! (SECRET_KEY_PREFIX ++ uuid)%string = Some password)
    as Hsecret.
  { unfold s1. rewrite (secret_key_after_all cs s0 uuid Hcs).
    rewrite Hs0. simpl. by rewrite lookup_insert_eq. }
  (* the first user with the identifier is still the one who signed up *)
  destruct (identity_prefix_after_all cs s0) as [k Hk]. fold s1 in Hk.
  assert (identity <$> registry s0
          = (identity <$> registry s) ++ [identity user]) as Hreg0.
  { rewrite Hs0. unfold registry at 1. simpl.
    by rewrite identity_JSON_users, fmap_app, Huser. }
  assert (list_find (λ u, User.identifier u = identifier) (registry s) = None)
    as Hnone'.
  { unfold find in Hnone. by apply fmap_None in Hnone. }
  assert (∃ idx user', list_find (λ u, User.identifier u = identifier) (registry s1)
                       = Some (idx, user') ∧ identity user' = identity user)
    as (idx & user' & Hfind & Hident).
  { pose proof (list_find_identifier_identity identifier (registry s1)) as Hl.
    rewrite Hk, Hreg0 in Hl.
    rewrite (list_find_app_l _ _ _ (length (registry s)) (identity user)) in Hl.
    - destruct (list_find (λ u, User.identifier u = identifier) (registry s1))
        as [[idx u]|]; [|done].
      simpl in Hl. exists idx, u. split; [done|]. congruence.
    - rewrite list_find_app_r.
      + simpl. rewrite decide_True by (by rewrite Huser).
        simpl. by rewrite length_fmap.
      + rewrite list_find_identifier_identity, Hnone'. done. }
  exists user'.
  pose proof (loginUser_cases identifier password s1) as Hl.
  unfold find in Hl. rewrite Hfind in Hl. simpl in Hl.
  assert (User.id user' = uuid) as Hid.
  { unfold identity in Hident. rewrite Huser in Hident. simpl in Hident. congruence. }
  rewrite Hid, Hsecret in Hl. simpl in Hl.
  destruct (String.eqb_spec password ""); [done|]. simpl in Hl.
  rewrite bool_decide_eq_true_2 in Hl by done. by split.
Qed.

Lemma login_after_any_calls_witness :
  let cs :=
    [Call_createTransaction (Params.make topup None 100 None None) "t1"
       "2024-01-01T00:00:01.000Z";
     Call_logout;
     Call_signupUser "Bob" "bob@x.com" "secret3" "u2" "2024-01-02T00:00:00.000Z";
     Call_logout] in
  ∃ user',
    loginUser "ada@x.com" "secret1" (after_all cs ada_storage)
    = (Returned user', with_session "u1" (after_all cs ada_storage))
    ∧ User.balance user' = Some 90%float.
Proof.
  intros cs.
  destruct (login_after_any_calls "Ada" "ada@x.com" "secret1" "u1"
              "2024-01-01T00:00:00.000Z" empty_storage ada ada_storage cs)
    as (user' & Hlogin & _).
  - intros [=].
  - reflexivity.
  - repeat constructor; simpl; try tauto. intros [=].
  - exists user'. split; [exact Hlogin|].
    vm_compute in Hlogin. by injection Hlogin as <-.
Defined.

(** ** The only failure of transaction creation *)

(** X22. [createTransactionForCurrentUser] returns exactly when
    [getCurrentUser] returns a user, and throws "No logged-in user."
    otherwise: no type, amount, fee or balance makes it fail. In
    particular it does not refuse a send that exceeds the balance. *)
Theorem createTransaction_returns_iff_session params uuid now s :
  ((∃ tx s', createTransactionForCurrentUser params uuid now s = (Returned tx, s'))
   ↔ ∃ user, getCurrentUser s = (Returned (Some user), s))
  ∧ (createTransactionForCurrentUser params uuid now s
     = (Thrown "No logged-in user.", s)
     ↔ getCurrentUser s = (Returned None, s)).
Proof.
  pose proof (createTransaction_cases params uuid now s) as Hc.
  rewrite getCurrentUser_session_user.
  destruct (session_user s) as [user|].
  - destruct Hc as (tx & s' & Hrun). split; split.
    + by exists user.
    + by exists tx, s'.
    + by rewrite Hrun.
    + done.
  - split; split.
    + intros (tx & s' & Hrun). by rewrite Hrun in Hc.
    + by intros [user ?].
    + done.
    + done.
Qed.

(** * Properties of [src/context/AppContext.tsx] *)

Lemma getBalanceForCurrentUser_shown s :
  getBalanceForCurrentUser s = (Returned (shown_balance s), s).
Proof.
  unfold getBalanceForCurrentUser, await, shown_balance.
  rewrite getCurrentUser_session_user. by destruct (session_user s).
Qed.

Lemma getTransactionsForUser_shown userId s :
  getTransactionsForUser userId s = (Returned (shown_transactions userId s), s).
Proof. done. Qed.

(** Running the provider's combinators, up to the calls into storage. *)
Ltac provider_run :=
  cbv beta iota zeta
    delta [AppContext.loadFromStorage AppContext.refresh AppContext.signup
           AppContext.login AppContext.logout AppContext.topUp AppContext.send
           AppContext.and_then AppContext.try_catch AppContext.try_finally
           AppContext.dispatch AppContext.storage AppContext.Promise_all
           AppContext.resolved AppContext.rethrow fst snd].

(** X16. Loading on mount and refreshing make the in-memory state a mirror
    of the stores, whatever it held before: with no current user, the state
    is initialized, not loading, without user, balance, transactions or
    error; with a current user, it holds that user, the balance that
    [getBalanceForCurrentUser] returns and the list that
    [getTransactionsForUser] returns, no error, and it is not loading
    (initialized after a load; as it was after a refresh). Neither writes
    to the stores, and neither throws. *)
Theorem provider_mirrors_storage st s :
  AppContext.loadFromStorage (st, s) = (Returned (), (mirror true s, s))
  ∧ AppContext.refresh (st, s)
    = (Returned (), (mirror (AppState.initialized st) s, s)).
Proof.
  unfold mirror. provider_run. rewrite getCurrentUser_session_user.
  destruct (session_user s) as [user|]; [|done].
  by rewrite getTransactionsForUser_shown, getBalanceForCurrentUser_shown.
Qed.

(** X17. A top-up or a send through the provider, with a current user:
    the call returns the created transaction (for a top-up: type topup,
    counterparty "TopUp", the given note or else "Top up"; for a send: type
    send with the given counterparty and note); the stores are as
    [createTransactionForCurrentUser] leaves them; and the in-memory state
    has the transaction prepended to its list, the balance that
    [getBalanceForCurrentUser] now returns, and is not loading. Its user,
    its error and its initialized flag are as before. *)
Theorem provider_creates_transaction st s user uuid now :
  getCurrentUser s = (Returned (Some user), s) →
  (∀ amount fee note,
     let params := Params.make topup (Some "TopUp"%string) amount fee
                     (Some (default "Top up"%string note)) in
     ∃ tx s',
       createTransactionForCurrentUser params uuid now s = (Returned tx, s')
       ∧ AppContext.topUp amount fee note uuid now (st, s)
         = (Returned tx,
            (AppState.make (AppState.initialized st) false (AppState.user st)
               (Some (shown_balance s')) (tx :: AppState.transactions st)
               (AppState.error st), s'))
       ∧ shown_balance s'
         = default 0%float (persisted_balance params (User.balance user)))
  ∧ (∀ amount fee counterparty note,
       let params := Params.make send counterparty amount fee note in
       ∃ tx s',
         createTransactionForCurrentUser params uuid now s = (Returned tx, s')
         ∧ AppContext.send amount fee counterparty note uuid now (st, s)
           = (Returned tx,
              (AppState.make (AppState.initialized st) false (AppState.user st)
                 (Some (shown_balance s')) (tx :: AppState.transactions st)
                 (AppState.error st), s'))
         ∧ shown_balance s'
           = default 0%float (persisted_balance params (User.balance user))).
Proof.
  intros Hcur. rewrite getCurrentUser_session_user in Hcur.
  injection Hcur as Huser.
  assert (∀ params,
            ∃ tx s',
              createTransactionForCurrentUser params uuid now s = (Returned tx, s')
              ∧ shown_balance s'
                = default 0%float (persisted_balance params (User.balance user)))
    as Hcreate.
  { intros params.
    pose proof (createTransaction_cases params uuid now s) as Hc.
    rewrite Huser in Hc. destruct Hc as (tx & s' & Hrun).
    exists tx, s'. split; [done|].
    pose proof (createTransaction_session_user params uuid now s user Huser) as Hs'.
    rewrite Hrun in Hs'. simpl in Hs'. unfold shown_balance. by rewrite Hs'. }
  split.
  - intros amount fee note params.
    destruct (Hcreate params) as (tx & s' & Hrun & Hbal).
    exists tx, s'. split_and!; [done| |done].
    provider_run. fold params. rewrite Hrun.
    by rewrite getBalanceForCurrentUser_shown.
  - intros amount fee counterparty note params.
    destruct (Hcreate params) as (tx & s' & Hrun & Hbal).
    exists tx, s'. split_and!; [done| |done].
    provider_run. fold params. rewrite Hrun.
    by rewrite getBalanceForCurrentUser_shown.
Qed.

(** X18. A top-up or a send through the provider without a current user
    throws "No logged-in user."; the stores are untouched, and the in-memory
    state only records the failure: its error is that message and it is
    not loading; user, balance and transactions are as before. *)
Theorem provider_rejects_without_session st s uuid now :
  getCurrentUser s = (Returned None, s) →
  let failed :=
    AppState.make (AppState.initialized st) false (AppState.user st)
      (AppState.balance st) (AppState.transactions st)
      (Some "No logged-in user."%string) in
  (∀ amount fee note,
     AppContext.topUp amount fee note uuid now (st, s)
     = (Thrown "No logged-in user.", (failed, s)))
  ∧ (∀ amount fee counterparty note,
       AppContext.send amount fee counterparty note uuid now (st, s)
       = (Thrown "No logged-in user.", (failed, s))).
Proof.
  intros Hcur failed. rewrite getCurrentUser_session_user in Hcur.
  injection Hcur as Huser.
  assert (∀ params, createTransactionForCurrentUser params uuid now s
                    = (Thrown "No logged-in user.", s)) as Hthrow.
  { intros params. pose proof (createTransaction_cases params uuid now s) as Hc.
    by rewrite Huser in Hc. }
  split.
  - intros amount fee note.
    provider_run. by rewrite Hthrow.
  - intros amount fee counterparty note.
    provider_run. by rewrite Hthrow.
Qed.

Lemma provider_creates_transaction_witness :
  let run :=
    AppContext.topUp 100 None None "t2" "2024-01-01T00:00:02.000Z"
      (AppContext.initialState, paid_storage) in
  AppState.balance (fst (snd run)) = Some 35%float
  ∧ Transaction.id <$> AppState.transactions (fst (snd run)) = ["t2"%string]
  ∧ Transaction.note <$> AppState.transactions (fst (snd run))
    = [Some "Top up"%string].
Proof.
  intros run.
  destruct (proj1 (provider_creates_transaction AppContext.initialState
                     paid_storage (User.with_balance ada (Some (-55)%float))
                     "t2" "2024-01-01T00:00:02.000Z"
                     ltac:(vm_compute; reflexivity)) 100%float None None)
    as (tx & s' & Hrun & Htop & Hbal).
  fold run in Htop. rewrite Htop. simpl.
  vm_compute in Hrun. injection Hrun as <- <-.
  split_and!; vm_compute; reflexivity.
Defined.

Lemma provider_rejects_without_session_witness :
  AppContext.send 50 (Some 5%float) (Some "Bob"%string) None "t1"
    "2024-01-01T00:00:01.000Z" (AppContext.initialState, empty_storage)
  = (Thrown "No logged-in user.",
     (AppState.make false false None None [] (Some "No logged-in user."%string),
      empty_storage)).
Proof.
  apply (proj2 (provider_rejects_without_session AppContext.initialState
                  empty_storage "t1" "2024-01-01T00:00:01.000Z" eq_refl)).
Defined.

(** X19. Logging out through the provider, whatever the storage call
    does. When it returns, the provider returns and the in-memory state
    forgets everything it held: it is the initial state, marked
    initialized. When it throws, the provider throws the same message and
    the state keeps what it held, records the message as its error and is
    not loading. In both cases the stores are as the storage call left
    them. With the [logout] of storage.ts, once it has returned, loading
    from the stores gives the same, empty state. *)
Theorem provider_logout_forgets st s :
  let forgotten := AppState.make true false None None [] None in
  (∀ storageLogout : Async unit,
     match storageLogout s with
     | (Returned _, s') =>
         AppContext.logout_via storageLogout (st, s)
         = (Returned (), (forgotten, s'))
     | (Thrown message, s') =>
         AppContext.logout_via storageLogout (st, s)
         = (Thrown message,
            (AppState.make (AppState.initialized st) false (AppState.user st)
               (AppState.balance st) (AppState.transactions st) (Some message),
             s'))
     end)
  ∧ (∀ s', logout s = (Returned (), s') →
       AppContext.logout (st, s) = (Returned (), (forgotten, s'))
       ∧ AppContext.loadFromStorage (forgotten, s')
         = (Returned (), (forgotten, s'))).
Proof.
  intros forgotten. split.
  - intros storageLogout.
    unfold AppContext.logout_via, AppContext.try_catch, AppContext.and_then,
      AppContext.storage, AppContext.dispatch, AppContext.rethrow.
    simpl. by destruct (storageLogout s) as [[[]|message] s'].
  - intros s' [= <-]. split; [done|].
    provider_run. by rewrite getCurrentUser_session_user.
Qed.

(** X20. Logging in through the provider: when [loginUser] throws, the
    provider throws the same message, the stores are untouched and the
    in-memory state keeps its user, balance and transactions, records the
    message as its error and is not loading; when [loginUser] returns a
    user, the provider returns that user and the state holds the user, the
    balance and the transactions that storage now returns, and no error. *)
Theorem provider_login identifier password st s :
  match loginUser identifier password s with
  | (Thrown message, _) =>
      AppContext.login identifier password (st, s)
      = (Thrown message,
         (AppState.make (AppState.initialized st) false (AppState.user st)
            (AppState.balance st) (AppState.transactions st) (Some message), s))
  | (Returned user, s') =>
      AppContext.login identifier password (st, s)
      = (Returned user,
         (AppState.make (AppState.initialized st) false (Some user)
            (Some (shown_balance s')) (shown_transactions (User.id user) s') None,
          s'))
  end.
Proof.
  pose proof (loginUser_cases identifier password s) as Hc.
  destruct (find _ _) as [user|]; simpl in Hc.
  - destruct (truthy _ && bool_decide _); rewrite Hc; provider_run; rewrite Hc.
    + by rewrite getTransactionsForUser_shown, getBalanceForCurrentUser_shown.
    + done.
  - rewrite Hc. provider_run. by rewrite Hc.
Qed.

(** X21. Signing up through the provider, with an identifier that no user
    has and a generated id that is not empty and that no user has: the
    provider returns the new user, the stores are as [signupUser] leaves
    them, and the in-memory state holds the new user, balance 0 and no
    transactions, no error, and is not loading. With an identifier that
    some user already has, the provider throws, the stores are untouched
    and the state only records the error. *)
Theorem provider_signup name identifier password uuid now st s :
  (Forall (λ u, User.identifier u ≠ identifier) (registry s) →
   uuid ≠ ""%string → Forall (λ u, User.id u ≠ uuid) (registry s) →
   let user := User.make uuid name identifier (Some 0%float) now in
   AppContext.signup name identifier password uuid now (st, s)
   = (Returned user,
      (AppState.make (AppState.initialized st) false (Some user)
         (Some 0%float) [] None,
       snd (signupUser name identifier password uuid now s))))
  ∧ (∀ u, u ∈ registry s → User.identifier u = identifier →
     AppContext.signup name identifier password uuid now (st, s)
     = (Thrown "A user with that identifier already exists.",
        (AppState.make (AppState.initialized st) false (AppState.user st)
           (AppState.balance st) (AppState.transactions st)
           (Some "A user with that identifier already exists."%string), s))).
Proof.
  pose proof (signupUser_cases name identifier password uuid now s) as Hc.
  split.
  - intros Hfree Hne Hfresh user.
    rewrite (proj2 (find_None_Forall _ _) Hfree) in Hc. simpl in Hc.
    destruct (signupUser name identifier password uuid now s) as [o s0] eqn:Hrun.
    injection Hc as -> _.
    destruct (signupUser_getters_aux _ _ _ _ _ _ _ _ Hne Hfresh Hrun)
      as (_ & Hbal & Hlist).
    provider_run. rewrite Hrun. cbn [fst snd User.id].
    by rewrite Hlist, Hbal.
  - intros u Hin Hid.
    destruct (find _ _) eqn:Hfind.
    + provider_run. by rewrite Hc.
    + apply find_None_Forall in Hfind. by eapply Forall_forall in Hfind.
Qed.

Lemma provider_signup_witness :
  AppContext.signup "Ada" "ada@x.com" "secret1" "u1" "2024-01-01T00:00:00.000Z"
    (AppContext.initialState, empty_storage)
  = (Returned ada,
     (AppState.make false false (Some ada) (Some 0%float) [] None, ada_storage))
  ∧ fst (AppContext.signup "Eve" "ada@x.com" "secret2" "u2"
           "2024-01-02T00:00:00.000Z" (AppContext.initialState, ada_storage))
    = Thrown "A user with that identifier already exists.".
Proof.
  split.
  - apply (proj1 (provider_signup "Ada" "ada@x.com" "secret1" "u1"
                    "2024-01-01T00:00:00.000Z" AppContext.initialState
                    empty_storage)); [constructor | intros [=] | constructor].
  - rewrite (proj2 (provider_signup "Eve" "ada@x.com" "secret2" "u2"
                      "2024-01-02T00:00:00.000Z" AppContext.initialState
                      ada_storage) ada); [done| |done].
    vm_compute. apply list_elem_of_here.
Defined.
